(** * The state and data-synchronisation layer of the Nexus front end

    A shallow embedding of [services/api.ts] (the [ApiService] gateway with
    its axios interceptors) and of [store/index.ts] (the zustand stores
    [useAuthStore] and [useAppStore]), followed by the properties proved
    about them.

    Conventions.
    - JavaScript numbers that are identifiers or HTTP status codes are [Z].
    - JavaScript strings are [string]; a value of type [string | null] is an
      [option string], and the truthiness test [if (s)] is [truthy].
    - Search queries are inspected code unit by code unit ([trim]), so a
      query is a list of UTF-16 code units.
    - An asynchronous function is a state transformer returning an
      [Outcome]: the promise resolves, rejects, or never settles.
    - The server is a script of replies, consumed one per dispatched
      request. *)

From Stdlib Require Import ZArith.
From stdpp Require Import gmap strings list pretty.

Local Open Scope Z_scope.

(** ** Types ([types/index.ts]) *)

Module User.
Record t := mk {
  id : Z;
  username : string;
  email : string;
  first_name : string;
  last_name : string;
}.
End User.

Module AuthTokens.
Record t := mk {
  access : string;
  refresh : string;
}.
End AuthTokens.

Module ApiError.
Record t := mk {
  error : string;
  status : Z;
}.
End ApiError.

Module LoginCredentials.
Record t := mk {
  username : string;
  password : string;
}.
End LoginCredentials.

Module RegisterCredentials.
Record t := mk {
  username : string;
  email : string;
  password : string;
  first_name : option string;
  last_name : option string;
}.
End RegisterCredentials.

(** The fields of [Movie] that are integers, strings or booleans; the
    optional nested records and the floating-point scores are never read
    by the gateway or the stores. *)
Module Movie.
Record t := mk {
  id : Z;
  title : string;
  overview : string;
  poster_path : option string;
  backdrop_path : option string;
  release_date : string;
  genre_ids : list Z;
  original_language : string;
  original_title : string;
  adult : bool;
  video : bool;
}.
End Movie.

Module FavoriteMovie.
Record t := mk {
  id : Z;
  movie_id : Z;
  title : string;
  poster_path : option string;
  release_date : string;
  added_at : string;
}.
End FavoriteMovie.

(** A search query, as a sequence of UTF-16 code units. *)
Definition query := list N.

(** ** JavaScript values *)

(** [if (s)] for [s : string | null]: the empty string and [null] are falsy. *)
Definition truthy (s : option string) : bool :=
  match s with
  | Some EmptyString => false
  | Some _ => true
  | None => false
  end.

(** [a || b] where [a : string | undefined] and [b : string]. *)
Definition or_else (a : option string) (b : string) : string :=
  match a with
  | Some s => if truthy a then s else b
  | None => b
  end.

(** [JSON.stringify] and [JSON.parse] at the types the program uses them.
    [parse_user] is [JSON.parse] read at type [User | null], the type of
    the store's [user], as [checkAuth] reads it: [None] when it throws,
    [Some None] when the document is [null], which parses without
    throwing, and [Some (Some user)] for a user.  The two [persist_*]
    functions are the records the zustand [persist] middleware writes:
    the partialised state, serialised. *)
Class JSON := {
  stringify_user : User.t → string;
  parse_user : string → option (option User.t);
  persist_auth : option User.t → option AuthTokens.t → bool → string;
  persist_app : list Movie.t → list Movie.t → list query → string;
}.

(** ** Requests, replies and errors (axios) *)

Inductive Method := GET | POST | PATCH | DELETE.

Inductive Body :=
| NoBody
| LoginBody (credentials : LoginCredentials.t)
| RegisterBody (credentials : RegisterCredentials.t)
| RefreshBody (refresh : string)
| FavoriteBody (movie_id : Z) (title : string) (poster_path : option string)
    (release_date : string).

(** An axios request config: the custom [_retry] mark is the one the
    response interceptor sets. *)
Record Config := mkConfig {
  method : Method;
  url : string;
  data : Body;
  Authorization : option string;
  _retry : bool;
}.

(** The body of an error response, read through [data?.error] and
    [data?.message]. *)
Record ErrorData := mkErrorData {
  data_error : option string;
  data_message : option string;
}.

(** [response.data] has type [any]; the record gives its reading at each
    of the types the endpoints declare for it. *)
Record ResponseData := mkResponseData {
  as_tokens : AuthTokens.t;
  as_profile_user : User.t;
  as_user : User.t;
  as_favorite : FavoriteMovie.t;
  as_favorites : list FavoriteMovie.t;
}.

(** What the server does with one dispatched request: a 2xx response
    ([Success]), a response with a status outside 200-299, which axios
    rejects ([Failure]), or no response at all. *)
Inductive Reply :=
| Success (d : ResponseData)
| Failure (status : Z) (d : ErrorData)
| NoResponse.

Record Response := mkResponse {
  response_data : ResponseData;
  response_config : Config;
}.

(** Thrown values.  An [AxiosError] always carries its config and its
    request; [response] is absent when no response arrived. *)
Inductive JsError :=
| AxiosError (config : Config) (response : option (Z * ErrorData))
| Error (message : string)
| ApiErr (e : ApiError.t).

(** ** Promises *)

Inductive Outcome (A : Type) :=
| Resolved (a : A)
| Rejected (e : JsError)
| Pending.
Arguments Resolved {A} a.
Arguments Rejected {A} e.
Arguments Pending {A}.

Definition Async (S A : Type) : Type := S → Outcome A * S.

Definition ret {S A} (a : A) : Async S A := λ s, (Resolved a, s).

Definition throw {S A} (e : JsError) : Async S A := λ s, (Rejected e, s).

Definition bind {S A B} (c : Async S A) (k : A → Async S B) : Async S B :=
  λ s, match c s with
       | (Resolved a, s') => k a s'
       | (Rejected e, s') => (Rejected e, s')
       | (Pending, s') => (Pending, s')
       end.

(** [try { c } catch (error) { h error }] *)
Definition try_catch {S A} (c : Async S A) (h : JsError → Async S A) : Async S A :=
  λ s, match c s with
       | (Rejected e, s') => h e s'
       | other => other
       end.

Definition gets {S A} (f : S → A) : Async S A := λ s, (Resolved (f s), s).

Definition modify {S} (f : S → S) : Async S unit := λ s, (Resolved tt, f s).

Notation "'await' x '<-' c ';' k" := (bind c (λ x, k))
  (at level 10, x name, c at level 100, k at level 200).
Notation "c ';;' k" := (bind c (λ _, k))
  (at level 100, k at level 200, right associativity).

(** ** The browser *)

Record Window := mkWindow {
  localStorage : gmap string string;
  location_href : string;
}.

(** [window] is [None] outside a browser ([typeof window === 'undefined']).
    [net] holds the replies the server will give, in dispatch order, and
    [sent] the requests dispatched so far, oldest first. *)
Record Browser := mkBrowser {
  window : option Window;
  net : list Reply;
  sent : list Config;
}.

Definition with_storage (f : gmap string string → gmap string string)
    (b : Browser) : Browser :=
  match window b with
  | Some win =>
      mkBrowser (Some (mkWindow (f (localStorage win)) (location_href win)))
        (net b) (sent b)
  | None => b
  end.

Definition storage_lookup (key : string) (b : Browser) : option string :=
  match window b with
  | Some win => localStorage win !! key
  | None => None
  end.

(** [window.location.href = href]; a [ReferenceError] without a window. *)
Definition assign_href (href : string) : Async Browser unit :=
  λ b, match window b with
       | Some win =>
           (Resolved tt,
            mkBrowser (Some (mkWindow (localStorage win) href)) (net b) (sent b))
       | None => (Rejected (Error "window is not defined"), b)
       end.

(** The transport: the request is recorded and the next reply of the
    script settles it; with no reply left it stays pending. *)
Definition dispatch (config : Config) : Async Browser Response :=
  λ b, match net b with
       | [] => (Pending, mkBrowser (window b) [] (sent b ++ [config]))
       | reply :: rest =>
           let b' := mkBrowser (window b) rest (sent b ++ [config]) in
           match reply with
           | Success d => (Resolved (mkResponse d config), b')
           | Failure status d => (Rejected (AxiosError config (Some (status, d))), b')
           | NoResponse => (Rejected (AxiosError config None), b')
           end
       end.

(** ** [ApiService] ([services/api.ts]) *)

Module ApiService.

Definition getToken (b : Browser) : option string :=
  storage_lookup "access_token" b.

Definition getRefreshToken (b : Browser) : option string :=
  storage_lookup "refresh_token" b.

Definition setTokens (tokens : AuthTokens.t) : Browser → Browser :=
  with_storage (λ ls,
    <["refresh_token" := AuthTokens.refresh tokens]>
      (<["access_token" := AuthTokens.access tokens]> ls)).

Definition clearTokens : Browser → Browser :=
  with_storage (λ ls,
    delete "user" (delete "refresh_token" (delete "access_token" ls))).

Definition logout : Browser → Browser := clearTokens.

Definition handleError (error : JsError) : ApiError.t :=
  match error with
  | AxiosError _ (Some (status, d)) =>
      ApiError.mk
        (or_else (data_error d) (or_else (data_message d) "An error occurred"))
        status
  | AxiosError _ None =>
      ApiError.mk "Network error. Please check your connection." 0
  | Error message =>
      ApiError.mk (or_else (Some message) "An unexpected error occurred") 0
  | ApiErr _ =>
      ApiError.mk "An unexpected error occurred" 0
  end.

Definition bearer (config : Config) (token : string) : Config :=
  mkConfig (method config) (url config) (data config)
    (Some ("Bearer " +:+ token)) (_retry config).

Definition mark_retry (config : Config) : Config :=
  mkConfig (method config) (url config) (data config)
    (Authorization config) true.

(** [if (token) { config.headers.Authorization = `Bearer ${token}` }] *)
Definition attach_token (config : Config) (b : Browser) : Config :=
  match getToken b with
  | Some token => if truthy (Some token) then bearer config token else config
  | None => config
  end.

(** The request interceptor. *)
Definition request_interceptor (config : Config) : Async Browser Config :=
  gets (attach_token config).

Definition post (u : string) (d : Body) : Config :=
  mkConfig POST u d None false.

Definition get (u : string) : Config :=
  mkConfig GET u NoBody None false.

Definition delete_ (u : string) : Config :=
  mkConfig DELETE u NoBody None false.

(** [refreshToken], over the axios instance [call] it posts through. *)
Definition refreshToken_via (call : Config → Async Browser Response)
    : Async Browser AuthTokens.t :=
  try_catch
    (await refreshToken <- gets getRefreshToken;
     match refreshToken with
     | Some token =>
         if truthy refreshToken then
           await response <- call (post "/token/refresh/" (RefreshBody token));
           let tokens := as_tokens (response_data response) in
           modify (setTokens tokens);;
           ret tokens
         else throw (Error "No refresh token available")
     | None => throw (Error "No refresh token available")
     end)
    (λ error, throw (ApiErr (handleError error))).

(** The rejection handler of the response interceptor.  The [catch]
    guards the refresh only: the retried call is returned, not awaited,
    so its rejection goes to the caller as it is. *)
Definition response_rejected (call : Config → Async Browser Response)
    (error : JsError) : Async Browser Response :=
  match error with
  | AxiosError originalRequest (Some (status, _)) =>
      if (status =? 401) && negb (_retry originalRequest) then
        let originalRequest := mark_retry originalRequest in
        try_catch
          (refreshToken_via call;; ret tt)
          (λ refreshError,
            modify logout;;
            assign_href "/login";;
            throw refreshError);;
        await originalRequest <- gets (attach_token originalRequest);
        call originalRequest
      else throw error
  | _ => throw error
  end.

(** [this.api(config)]: request interceptor, transport, response
    interceptor.  Every level of the recursion dispatches one request, so
    [fuel] bounds the number of requests in flight on behalf of [config]. *)
Fixpoint api_fuel (fuel : nat) (config : Config) : Async Browser Response :=
  match fuel with
  | O => λ b, (Pending, b)
  | S fuel' =>
      await config <- request_interceptor config;
      try_catch (dispatch config) (response_rejected (api_fuel fuel'))
  end.

(** The axios instance.  A call can dispatch no more requests than there
    are replies left, so one more unit of fuel than that never runs out. *)
Definition api (config : Config) : Async Browser Response :=
  λ b, api_fuel (S (length (net b))) config b.

Definition refreshToken : Async Browser AuthTokens.t := refreshToken_via api.

Section Endpoints.
Context `{JSON}.

Definition login (credentials : LoginCredentials.t)
    : Async Browser (User.t * AuthTokens.t) :=
  try_catch
    (await response <- api (post "/token/" (LoginBody credentials));
     let tokens := as_tokens (response_data response) in
     modify (setTokens tokens);;
     await userResponse <- api (get "/profile/");
     let user := as_profile_user (response_data userResponse) in
     modify (with_storage (λ ls, <["user" := stringify_user user]> ls));;
     ret (user, tokens))
    (λ error, throw (ApiErr (handleError error))).

End Endpoints.

Definition register (credentials : RegisterCredentials.t) : Async Browser User.t :=
  try_catch
    (await response <- api (post "/register/" (RegisterBody credentials));
     ret (as_user (response_data response)))
    (λ error, throw (ApiErr (handleError error))).

Definition getFavorites : Async Browser (list FavoriteMovie.t) :=
  try_catch
    (await response <- api (get "/favorites/");
     ret (as_favorites (response_data response)))
    (λ error, throw (ApiErr (handleError error))).

Definition addToFavorites (movie : Movie.t) : Async Browser FavoriteMovie.t :=
  try_catch
    (let favoriteData :=
       FavoriteBody (Movie.id movie) (Movie.title movie)
         (Movie.poster_path movie) (Movie.release_date movie) in
     await response <- api (post "/favorites/" favoriteData);
     ret (as_favorite (response_data response)))
    (λ error, throw (ApiErr (handleError error))).

Definition removeFromFavorites (favoriteId : Z) : Async Browser unit :=
  try_catch
    (api (delete_ ("/favorites/" +:+ pretty favoriteId +:+ "/"));;
     ret tt)
    (λ error, throw (ApiErr (handleError error))).

End ApiService.

(** ** The stores ([store/index.ts]) *)

Module AuthState.
Record t := mk {
  user : option User.t;
  tokens : option AuthTokens.t;
  isAuthenticated : bool;
  isLoading : bool;
}.
End AuthState.

Module AppState.
Record t := mk {
  favorites : list FavoriteMovie.t;
  watchlist : list Movie.t;
  recentlyViewed : list Movie.t;
  searchHistory : list query;
  isLoading : bool;
}.
End AppState.

(** [react-hot-toast]: [toast.success], [toast.error] and plain [toast]. *)
Inductive Toast :=
| toast_success (message : string)
| toast_error (message : string)
| toast (message : string).

(** Everything the two stores can see: the browser behind the gateway,
    the notifications shown so far (oldest first) and both store states. *)
Record World := mkWorld {
  browser : Browser;
  toasts : list Toast;
  auth : AuthState.t;
  app : AppState.t;
}.

(** A call on the [apiService] singleton: it runs on the browser and can
    reach nothing else. *)
Definition apiService {A} (c : Async Browser A) : Async World A :=
  λ w, let '(o, b) := c (browser w) in
       (o, mkWorld b (toasts w) (auth w) (app w)).

Definition show (t : Toast) : Async World unit :=
  modify (λ w, mkWorld (browser w) (toasts w ++ [t]) (auth w) (app w)).

(** The write of the [persist] middleware: the record goes to
    [localStorage] under the store's name. *)
Definition persist (name value : string) (b : Browser) : Browser :=
  with_storage (λ ls, <[name := value]> ls) b.

(** [error.error] on a caught value of type [any]. *)
Definition error_field (error : JsError) : option string :=
  match error with
  | ApiErr e => Some (ApiError.error e)
  | _ => None
  end.

Definition exec {S A} (c : Async S A) (s : S) : S := (c s).2.

Module useAuthStore.
Section Store.
Context `{JSON}.

Definition initial : AuthState.t := AuthState.mk None None false false.

Definition partialize (state : AuthState.t) : string :=
  persist_auth (AuthState.user state) (AuthState.tokens state)
    (AuthState.isAuthenticated state).

(** [set(partial)] of the persisted store. *)
Definition set (f : AuthState.t → AuthState.t) : Async World unit :=
  modify (λ w,
    let state := f (auth w) in
    mkWorld (persist "auth-storage" (partialize state) (browser w))
      (toasts w) state (app w)).

Definition set_isLoading (v : bool) (state : AuthState.t) : AuthState.t :=
  AuthState.mk (AuthState.user state) (AuthState.tokens state)
    (AuthState.isAuthenticated state) v.

Definition login (credentials : LoginCredentials.t) : Async World unit :=
  try_catch
    (set (set_isLoading true);;
     await session <- apiService (ApiService.login credentials);
     let user := session.1 in
     let tokens := session.2 in
     set (λ _, AuthState.mk (Some user) (Some tokens) true false);;
     show (toast_success ("Bienvenue " +:+ User.username user +:+ "!")))
    (λ error,
      set (set_isLoading false);;
      show (toast_error (or_else (error_field error) "Erreur de connexion"));;
      throw error).

Definition register (credentials : RegisterCredentials.t) : Async World unit :=
  try_catch
    (set (set_isLoading true);;
     apiService (ApiService.register credentials);;
     set (set_isLoading false);;
     show (toast_success
       "Compte créé avec succès! Vous pouvez maintenant vous connecter."))
    (λ error,
      set (set_isLoading false);;
      show (toast_error
        (or_else (error_field error) "Erreur lors de la création du compte"));;
      throw error).

Definition logout : Async World unit :=
  apiService (modify ApiService.logout);;
  set (λ state, AuthState.mk None None false (AuthState.isLoading state));;
  show (toast_success "Déconnexion réussie").

Definition refreshToken : Async World unit :=
  try_catch
    (await tokens <- apiService ApiService.refreshToken;
     set (λ state,
       AuthState.mk (AuthState.user state) (Some tokens)
         (AuthState.isAuthenticated state) (AuthState.isLoading state)))
    (λ _, logout).

Definition checkAuth : Async World unit :=
  await token <- gets (λ w, storage_lookup "access_token" (browser w));
  await userStr <- gets (λ w, storage_lookup "user" (browser w));
  match token, userStr with
  | Some access, Some str =>
      if truthy token && truthy userStr then
        try_catch
          (match parse_user str with
           | Some user =>
               await refresh <-
                 gets (λ w, storage_lookup "refresh_token" (browser w));
               set (λ state,
                 AuthState.mk user
                   (Some (AuthTokens.mk access (or_else refresh EmptyString)))
                   true (AuthState.isLoading state))
           | None => throw (Error "Unexpected token in JSON")
           end)
          (λ _, logout)
      else ret tt
  | _, _ => ret tt
  end.

End Store.
End useAuthStore.

(** [String.prototype.trim] strips the code units of [WhiteSpace] and
    [LineTerminator] from both ends. *)
Definition is_white_space (c : N) : bool :=
  ((c =? 0x09) || (c =? 0x0A) || (c =? 0x0B) || (c =? 0x0C) || (c =? 0x0D)
   || (c =? 0x20) || (c =? 0xA0) || (c =? 0x1680)
   || ((0x2000 <=? c) && (c <=? 0x200A))
   || (c =? 0x2028) || (c =? 0x2029) || (c =? 0x202F) || (c =? 0x205F)
   || (c =? 0x3000) || (c =? 0xFEFF))%N.

Fixpoint trimStart (q : query) : query :=
  match q with
  | c :: q' => if is_white_space c then trimStart q' else q
  | [] => []
  end.

Definition trimEnd (q : query) : query := reverse (trimStart (reverse q)).

Definition trim (q : query) : query := trimEnd (trimStart q).

(** [if (q)] for a string [q]. *)
Definition nonempty (q : query) : bool :=
  match q with
  | [] => false
  | _ => true
  end.

Module useAppStore.
Section Store.
Context `{JSON}.

Definition initial : AppState.t := AppState.mk [] [] [] [] false.

Definition partialize (state : AppState.t) : string :=
  persist_app (AppState.watchlist state) (AppState.recentlyViewed state)
    (AppState.searchHistory state).

Definition set (f : AppState.t → AppState.t) : Async World unit :=
  modify (λ w,
    let state := f (app w) in
    mkWorld (persist "app-storage" (partialize state) (browser w))
      (toasts w) (auth w) state).

Definition set_favorites (v : list FavoriteMovie.t) (state : AppState.t)
    : AppState.t :=
  AppState.mk v (AppState.watchlist state) (AppState.recentlyViewed state)
    (AppState.searchHistory state) (AppState.isLoading state).

Definition set_watchlist (v : list Movie.t) (state : AppState.t) : AppState.t :=
  AppState.mk (AppState.favorites state) v (AppState.recentlyViewed state)
    (AppState.searchHistory state) (AppState.isLoading state).

Definition set_recentlyViewed (v : list Movie.t) (state : AppState.t)
    : AppState.t :=
  AppState.mk (AppState.favorites state) (AppState.watchlist state) v
    (AppState.searchHistory state) (AppState.isLoading state).

Definition set_searchHistory (v : list query) (state : AppState.t) : AppState.t :=
  AppState.mk (AppState.favorites state) (AppState.watchlist state)
    (AppState.recentlyViewed state) v (AppState.isLoading state).

Definition set_isLoading (v : bool) (state : AppState.t) : AppState.t :=
  AppState.mk (AppState.favorites state) (AppState.watchlist state)
    (AppState.recentlyViewed state) (AppState.searchHistory state) v.

Definition loadFavorites : Async World unit :=
  try_catch
    (set (set_isLoading true);;
     await favorites <- apiService ApiService.getFavorites;
     set (λ state, set_isLoading false (set_favorites favorites state)))
    (λ _, set (set_isLoading false)).

Definition addToFavorites (movie : Movie.t) : Async World unit :=
  try_catch
    (await favorite <- apiService (ApiService.addToFavorites movie);
     set (λ state, set_favorites (AppState.favorites state ++ [favorite]) state);;
     show (toast_success "Film ajouté aux favoris!"))
    (λ error,
      show (toast_error
        (or_else (error_field error) "Erreur lors de l'ajout aux favoris"));;
      throw error).

Definition removeFromFavorites (movieId : Z) : Async World unit :=
  try_catch
    (await currentFavorites <- gets (λ w, AppState.favorites (app w));
     match find (λ f, FavoriteMovie.movie_id f =? movieId) currentFavorites with
     | Some favorite =>
         apiService (ApiService.removeFromFavorites (FavoriteMovie.id favorite));;
         set (λ state,
           set_favorites
             (filter (λ f, FavoriteMovie.movie_id f ≠ movieId)
                (AppState.favorites state))
             state);;
         show (toast_success "Film retiré des favoris!")
     | None => ret tt
     end)
    (λ error,
      show (toast_error
        (or_else (error_field error) "Erreur lors de la suppression des favoris"));;
      throw error).

Definition isFavorite (movieId : Z) (w : World) : bool :=
  existsb (λ f, FavoriteMovie.movie_id f =? movieId) (AppState.favorites (app w)).

Definition addToWatchlist (movie : Movie.t) : Async World unit :=
  await isAlreadyInWatchlist <-
    gets (λ w, existsb (λ m, Movie.id m =? Movie.id movie)
                 (AppState.watchlist (app w)));
  if isAlreadyInWatchlist then
    show (toast "Ce film est déjà dans votre liste à regarder");;
    set (λ state, state)
  else
    show (toast_success "Film ajouté à votre liste à regarder!");;
    set (λ state, set_watchlist (AppState.watchlist state ++ [movie]) state).

Definition removeFromWatchlist (movieId : Z) : Async World unit :=
  set (λ state,
    set_watchlist (filter (λ m, Movie.id m ≠ movieId) (AppState.watchlist state))
      state);;
  show (toast_success "Film retiré de votre liste à regarder!").

Definition isInWatchlist (movieId : Z) (w : World) : bool :=
  existsb (λ m, Movie.id m =? movieId) (AppState.watchlist (app w)).

Definition addToRecentlyViewed (movie : Movie.t) : Async World unit :=
  set (λ state,
    let filtered :=
      filter (λ m, Movie.id m ≠ Movie.id movie) (AppState.recentlyViewed state) in
    set_recentlyViewed (take 50 (movie :: filtered)) state).

Definition clearRecentlyViewed : Async World unit :=
  set (set_recentlyViewed []);;
  show (toast_success "Historique des films consultés effacé").

Definition addToSearchHistory (q : query) : Async World unit :=
  if nonempty (trim q) then
    set (λ state,
      let filtered := filter (λ q', q' ≠ q) (AppState.searchHistory state) in
      set_searchHistory (take 20 (q :: filtered)) state)
  else ret tt.

Definition clearSearchHistory : Async World unit :=
  set (set_searchHistory []);;
  show (toast_success "Historique de recherche effacé").

Definition clearAll : Async World unit :=
  set (λ state, AppState.mk [] [] [] [] (AppState.isLoading state));;
  show (toast_success "Toutes les données locales ont été effacées").

End Store.
End useAppStore.

(** ** Frame conditions

    [frames R c]: whatever [c] does, the state it leaves is [R]-related
    to the state it started from. *)

Definition frames {S A} (R : relation S) (c : Async S A) : Prop :=
  ∀ s, R s (c s).2.

(** Two axios instances that agree on every browser with at most [k]
    replies left. *)
Definition agree_upto (k : nat) (call1 call2 : Config → Async Browser Response)
    : Prop :=
  ∀ config b, (length (net b) ≤ k)%nat → call1 config b = call2 config b.

Definition net_shrinks : relation Browser :=
  λ b b', (length (net b') ≤ length (net b))%nat.

(** The storage keys the gateway never writes: all but its three. *)
Definition foreign_key (key : string) : Prop :=
  key ≠ "access_token" ∧ key ≠ "refresh_token" ∧ key ≠ "user".

Definition keeps_key (key : string) : relation Browser :=
  λ b b', storage_lookup key b' = storage_lookup key b.

(** In a browser the gateway stays in a browser. *)
Definition keeps_window : relation Browser :=
  λ b b', is_Some (window b) → is_Some (window b').

(** The session of the auth store, apart from the loading flag. *)
Definition same_session (s s' : AuthState.t) : Prop :=
  AuthState.user s' = AuthState.user s
  ∧ AuthState.tokens s' = AuthState.tokens s
  ∧ AuthState.isAuthenticated s' = AuthState.isAuthenticated s.

(** A string is present when it is there and not empty, as every test of
    the program on a stored string takes it ([if (token)], [token &&
    userStr], [|| '']). *)
Definition present (s : option string) : Prop := truthy s = true.

(** The session invariant as the specification words it: authenticated
    exactly when the user, the access token and the refresh token are
    all present. *)
Definition session_invariant_as_specified (s : AuthState.t) : Prop :=
  AuthState.isAuthenticated s = true
  ↔ is_Some (AuthState.user s)
    ∧ present (AuthTokens.access <$> AuthState.tokens s)
    ∧ present (AuthTokens.refresh <$> AuthState.tokens s).

(** The invariant the store keeps: a user is there only in an
    authenticated session, and an authenticated session has its token
    pair.  Neither converse is kept: [checkAuth] authenticates with the
    user [null] when that is what storage holds, and [refreshToken] stores
    a token pair whether or not the session is authenticated. *)
Definition session_invariant (s : AuthState.t) : Prop :=
  (is_Some (AuthState.user s) → AuthState.isAuthenticated s = true)
  ∧ (AuthState.isAuthenticated s = true → is_Some (AuthState.tokens s)).

(** A reply that fails the request without involving the interceptor's
    refresh: no response, or an error status other than 401. *)
Definition refused_outright (reply : Reply) : Prop :=
  match reply with
  | Success _ => False
  | Failure status _ => status ≠ 401
  | NoResponse => True
  end.

(** ** Sequences of store operations *)

Section Runs.
Context `{JSON}.

Definition addToRecentlyViewed_all (movies : list Movie.t) (w : World) : World :=
  foldl (λ w movie, exec (useAppStore.addToRecentlyViewed movie) w) w movies.

Definition addToSearchHistory_all (queries : list query) (w : World) : World :=
  foldl (λ w q, exec (useAppStore.addToSearchHistory q) w) w queries.

(** The operations of the auth store, as data. *)
Inductive AuthOp :=
| Login (credentials : LoginCredentials.t)
| Register (credentials : RegisterCredentials.t)
| Logout
| RefreshToken
| CheckAuth.

Definition auth_op (op : AuthOp) : Async World unit :=
  match op with
  | Login credentials => useAuthStore.login credentials
  | Register credentials => useAuthStore.register credentials
  | Logout => useAuthStore.logout
  | RefreshToken => useAuthStore.refreshToken
  | CheckAuth => useAuthStore.checkAuth
  end.

Definition auth_ops (ops : list AuthOp) (w : World) : World :=
  foldl (λ w op, exec (auth_op op) w) w ops.

End Runs.

(** ** The specification's notions, in its own words *)

Section MostRecentFirst.
Context {A K : Type} `{EqDecision K} (key : A → K).

(** Of an access log (oldest access first), the latest access of every
    key: an entry is dropped when its key is accessed again later. *)
Fixpoint latest_accesses (log : list A) : list A :=
  match log with
  | [] => []
  | x :: later =>
      if decide (key x ∈ key <$> later) then latest_accesses later
      else x :: latest_accesses later
  end.

(** "A most-recent-first sequence, deduplicated, capped (oldest
    evicted)". *)
Definition most_recent_first (cap : nat) (log : list A) : list A :=
  take cap (reverse (latest_accesses log)).

End MostRecentFirst.

(** A recently-viewed sequence the store can hold: one entry per movie
    id, at most 50 entries. *)
Definition recentlyViewed_valid (l : list Movie.t) : Prop :=
  NoDup (Movie.id <$> l) ∧ (length l ≤ 50)%nat.

Definition searchHistory_valid (l : list query) : Prop :=
  NoDup l ∧ (length l ≤ 20)%nat.

(** A blank query: every code unit is white space. *)
Definition blank (q : query) : Prop := Forall (λ c, is_white_space c = true) q.

(** ** Example data

    Concrete values for the closed examples.  Strings hold no quotation
    mark of their own, so [dq] supplies it. *)

Definition dq : string := String (Ascii.ascii_of_N 34) EmptyString.

Definition json_string (s : string) : string := dq +:+ s +:+ dq.

Definition json_field (name value : string) : string :=
  json_string name +:+ ":" +:+ value.

Definition alice : User.t :=
  User.mk 1 "alice" "alice@example.org" "Alice" "Liddell".

Definition movie42 : Movie.t :=
  Movie.mk 42 "Brazil" "A clerk dreams." None None "1985-02-20" [18; 878]
    "en" "Brazil" false false.

Definition movie7 : Movie.t :=
  Movie.mk 7 "Stalker" "A guide leads two men." None None "1979-05-25" [18]
    "ru" "Stalker" false false.

Definition favorite42 : FavoriteMovie.t :=
  FavoriteMovie.mk 900 42 "Brazil" None "1985-02-20" "2025-01-01T00:00:00Z".

Definition old_tokens : AuthTokens.t := AuthTokens.mk "access-0" "refresh-0".

Definition new_tokens : AuthTokens.t := AuthTokens.mk "access-1" "refresh-1".

(** A response body: a fresh token pair, [alice]'s profile, one favorite. *)
Definition example_data : ResponseData :=
  mkResponseData new_tokens alice alice favorite42 [favorite42].

Definition no_error_data : ErrorData := mkErrorData None None.

Definition example_stringify_user (u : User.t) : string :=
  "{" +:+ json_field "id" (pretty (User.id u)) +:+ ","
  +:+ json_field "username" (json_string (User.username u)) +:+ ","
  +:+ json_field "email" (json_string (User.email u)) +:+ ","
  +:+ json_field "first_name" (json_string (User.first_name u)) +:+ ","
  +:+ json_field "last_name" (json_string (User.last_name u)) +:+ "}".

Definition example_stringify_tokens (t : AuthTokens.t) : string :=
  "{" +:+ json_field "access" (json_string (AuthTokens.access t)) +:+ ","
  +:+ json_field "refresh" (json_string (AuthTokens.refresh t)) +:+ "}".

(** A codec for the examples.  It parses the one user document the
    examples store and the document [null], and rejects every other
    string, as [JSON.parse] rejects the empty string and the malformed
    strings the examples use. *)
Definition example_json : JSON := {|
  stringify_user := example_stringify_user;
  parse_user := λ s,
    if decide (s = example_stringify_user alice) then Some (Some alice)
    else if decide (s = "null") then Some None
    else None;
  persist_auth := λ user tokens isAuthenticated,
    "{" +:+ json_field "user"
              (from_option example_stringify_user "null" user) +:+ ","
    +:+ json_field "tokens"
              (from_option example_stringify_tokens "null" tokens) +:+ ","
    +:+ json_field "isAuthenticated"
              (if isAuthenticated then "true" else "false") +:+ "}";
  persist_app := λ watchlist recentlyViewed searchHistory,
    "{" +:+ json_field "watchlist"
              (pretty (length watchlist)) +:+ ","
    +:+ json_field "recentlyViewed"
              (pretty (length recentlyViewed)) +:+ ","
    +:+ json_field "searchHistory"
              (pretty (length searchHistory)) +:+ "}";
|}.

Definition alice_credentials : LoginCredentials.t :=
  LoginCredentials.mk "alice" "pw".

Definition alice_registration : RegisterCredentials.t :=
  RegisterCredentials.mk "alice" "alice@example.org" "pw" None None.

(** A browser showing the home page, with the given storage and the
    given replies to come. *)
Definition example_browser (ls : gmap string string) (replies : list Reply)
    : Browser :=
  mkBrowser (Some (mkWindow ls "/")) replies [].

(** The storage of a signed-in browser. *)
Definition signed_in_storage : gmap string string :=
  <["user" := example_stringify_user alice]>
    (<["refresh_token" := "refresh-0"]> (<["access_token" := "access-0"]> ∅)).

(** A signed-in browser whose next request is refused with 401, then
    given a fresh token pair, then served. *)
Definition expired_browser : Browser :=
  example_browser signed_in_storage
    [Failure 401 no_error_data; Success example_data; Success example_data].

(** The same browser once the request and the refresh have gone through. *)
Definition refreshed_browser : Browser :=
  mkBrowser
    (Some (mkWindow
       (<["refresh_token" := "refresh-1"]>
          (<["access_token" := "access-1"]> signed_in_storage)) "/"))
    [Success example_data]
    [ApiService.bearer (ApiService.get "/favorites/") "access-0";
     ApiService.bearer
       (ApiService.post "/token/refresh/" (RefreshBody "refresh-0")) "access-0"].

Definition example_world (b : Browser) : World :=
  mkWorld b [] (AuthState.mk None None false false)
    (AppState.mk [] [] [] [] false).

(** Storage left with an access token and a user, but no refresh token. *)
Definition storage_without_refresh : gmap string string :=
  <["user" := example_stringify_user alice]>
    (<["access_token" := "access-0"]> ∅).


(** The token exchange succeeds, the profile request gets no response. *)
Definition profile_unreachable : list Reply := [Success example_data; NoResponse].

(** A signed-in session: the store holds [alice] and her tokens, and
    storage holds the gateway's three keys and the persisted record. *)
Definition signed_in_auth : AuthState.t :=
  AuthState.mk (Some alice) (Some old_tokens) true false.

Definition signed_in_world (replies : list Reply) : World :=
  mkWorld
    (example_browser
       (<["auth-storage" := useAuthStore.partialize (H:=example_json) signed_in_auth]>
          signed_in_storage)
       replies)
    [] signed_in_auth (AppState.mk [] [] [] [] false).

(** The server refuses the request with 401 and the refresh with 400. *)
Definition session_expired : list Reply :=
  [Failure 401 no_error_data;
   Failure 400 (mkErrorData None (Some "Token is invalid or expired"))].

(** ** More of [ApiService]: the catalogue endpoints and the helpers *)

Module MovieResponse.
Record t := mk {
  page : Z;
  results : list Movie.t;
  total_pages : Z;
  total_results : Z;
}.
End MovieResponse.

Module MovieRecommendationResponse.
Record t := mk {
  based_on_movie : Z;
  recommendations : list Movie.t;
  count : Z;
}.
End MovieRecommendationResponse.

(** [response.data] read at the further types these endpoints declare. *)
Class Readings := {
  as_movie : ResponseData → Movie.t;
  as_movies : ResponseData → list Movie.t;
  as_movie_response : ResponseData → MovieResponse.t;
  as_recommendation_response : ResponseData → MovieRecommendationResponse.t;
}.

(** The value of one search filter: a string, or the page number. *)
Inductive FilterValue :=
| FilterString (s : string)
| FilterNumber (n : Z).

(** [Object.entries(filters)]: the filters that are set, in the order
    the caller's object lists them. *)
Definition SearchFilters := list (string * FilterValue).

(** [if (value)]: the empty string and 0 are falsy. *)
Definition filter_truthy (v : FilterValue) : bool :=
  match v with
  | FilterString s => truthy (Some s)
  | FilterNumber n => negb (n =? 0)
  end.

(** [value.toString()] *)
Definition filter_toString (v : FilterValue) : string :=
  match v with
  | FilterString s => s
  | FilterNumber n => pretty n
  end.

(** [URLSearchParams.prototype.toString]: the
    application/x-www-form-urlencoded serialiser, on the UTF-8 bytes of
    names and values.  Letters, digits and [*-._] stay, a space becomes
    [+], every other byte becomes [%XX]. *)
Definition hex_digit (n : N) : Ascii.ascii :=
  if (n <? 10)%N then Ascii.ascii_of_N (48 + n) else Ascii.ascii_of_N (55 + n).

Definition form_safe (c : Ascii.ascii) : bool :=
  let n := Ascii.N_of_ascii c in
  ((48 <=? n) && (n <=? 57) || (65 <=? n) && (n <=? 90)
   || (97 <=? n) && (n <=? 122)
   || (n =? 42) || (n =? 45) || (n =? 46) || (n =? 95))%N.

Definition form_encode_byte (c : Ascii.ascii) : string :=
  let n := Ascii.N_of_ascii c in
  if form_safe c then String c EmptyString
  else if (n =? 32)%N then "+"
  else String (Ascii.ascii_of_N 37) (String (hex_digit (n / 16))
                     (String (hex_digit (n mod 16)) EmptyString)).

Fixpoint form_encode (s : string) : string :=
  match s with
  | EmptyString => EmptyString
  | String c s' => form_encode_byte c +:+ form_encode s'
  end.

Definition form_pair (p : string * string) : string :=
  form_encode p.1 +:+ "=" +:+ form_encode p.2.

Fixpoint URLSearchParams_toString (params : list (string * string)) : string :=
  match params with
  | [] => EmptyString
  | [p] => form_pair p
  | p :: rest => form_pair p +:+ "&" +:+ URLSearchParams_toString rest
  end.

(** The number of occurrences of a character in a string. *)
Fixpoint occurrences (c : Ascii.ascii) (s : string) : nat :=
  match s with
  | EmptyString => O
  | String c' s' => (if decide (c' = c) then 1 else 0)%nat + occurrences c s'
  end.

(** The sizes the poster and profile helpers accept. *)
Inductive PosterSize := poster_w200 | poster_w500 | poster_w780 | poster_original.

Inductive ProfileSize := profile_w185 | profile_w632 | profile_original.

Module ApiCatalogue.

(** The parameters of [searchMovies]: every entry whose value is truthy,
    as [params.append(key, value.toString())] leaves them. *)
Definition search_params (filters : SearchFilters) : list (string * string) :=
  (λ entry, (entry.1, filter_toString entry.2))
    <$> filter (λ entry, filter_truthy entry.2 = true) filters.

Section Endpoints.
Context `{Readings}.

Definition getMovieDetails (movieId : Z) : Async Browser Movie.t :=
  try_catch
    (await response <-
       ApiService.api (ApiService.get ("/movies/" +:+ pretty movieId +:+ "/"));
     ret (as_movie (response_data response)))
    (λ error, throw (ApiErr (ApiService.handleError error))).

(** [timeWindow] is ["day"] or ["week"]; [None] is the omitted argument. *)
Definition getTrendingMovies (timeWindow : option bool) : Async Browser (list Movie.t) :=
  try_catch
    (let window_name :=
       match timeWindow with
       | Some true => "day"
       | Some false => "week"
       | None => "week"
       end in
     await response <-
       ApiService.api
         (ApiService.get ("/movies/trending/?time_window=" +:+ window_name));
     ret (as_movies (response_data response)))
    (λ error, throw (ApiErr (ApiService.handleError error))).

Definition searchMovies (filters : SearchFilters) : Async Browser MovieResponse.t :=
  try_catch
    (let params := search_params filters in
     await response <-
       ApiService.api
         (ApiService.get
            ("/movies/search/?" +:+ URLSearchParams_toString params));
     ret (as_movie_response (response_data response)))
    (λ error, throw (ApiErr (ApiService.handleError error))).

(** [limit] defaults to 10. *)
Definition getMovieRecommendations (movieId : Z) (limit : option Z)
    : Async Browser MovieRecommendationResponse.t :=
  try_catch
    (await response <-
       ApiService.api
         (ApiService.get
            ("/movies/" +:+ pretty movieId +:+ "/recommendations/?limit="
             +:+ pretty (default 10 limit)));
     ret (as_recommendation_response (response_data response)))
    (λ error, throw (ApiErr (ApiService.handleError error))).

End Endpoints.

Definition addToWatchlist (movie : Movie.t) : Async Browser unit :=
  try_catch
    (ApiService.api
       (ApiService.post "/watchlist/"
          (FavoriteBody (Movie.id movie) (Movie.title movie)
             (Movie.poster_path movie) (Movie.release_date movie)));;
     ret tt)
    (λ error, throw (ApiErr (ApiService.handleError error))).

Definition removeFromWatchlist (movieId : Z) : Async Browser unit :=
  try_catch
    (ApiService.api
       (ApiService.delete_ ("/watchlist/" +:+ pretty movieId +:+ "/"));;
     ret tt)
    (λ error, throw (ApiErr (ApiService.handleError error))).

Definition getWatchlist : Async Browser (list FavoriteMovie.t) :=
  try_catch
    (await response <- ApiService.api (ApiService.get "/watchlist/");
     ret (as_favorites (response_data response)))
    (λ error, throw (ApiErr (ApiService.handleError error))).

(** *** Utility methods *)

Definition tmdb (size path : string) : string :=
  "https://image.tmdb.org/t/p/" +:+ size +:+ path.

Definition poster_size (size : PosterSize) : string :=
  match size with
  | poster_w200 => "w200"
  | poster_w500 => "w500"
  | poster_w780 => "w780"
  | poster_original => "original"
  end.

Definition profile_size (size : ProfileSize) : string :=
  match size with
  | profile_w185 => "w185"
  | profile_w632 => "w632"
  | profile_original => "original"
  end.

(** In each helper [size] is [None] when the argument is omitted. *)
Definition getImageUrl (path : option string) (size : option string) : string :=
  match path with
  | Some p => if truthy path then tmdb (default "w500" size) p
              else "/placeholder-movie.jpg"
  | None => "/placeholder-movie.jpg"
  end.

Definition getPosterUrl (posterPath : option string) (size : option PosterSize)
    : string :=
  match posterPath with
  | Some p => if truthy posterPath
              then tmdb (poster_size (default poster_w500 size)) p
              else "/placeholder-movie.jpg"
  | None => "/placeholder-movie.jpg"
  end.

Definition getBackdropUrl (path : option string) (size : option string) : string :=
  match path with
  | Some p => if truthy path then tmdb (default "w1280" size) p
              else "/placeholder-backdrop.jpg"
  | None => "/placeholder-backdrop.jpg"
  end.

Definition getProfileUrl (profilePath : option string)
    (size : option ProfileSize) : string :=
  match profilePath with
  | Some p => if truthy profilePath
              then tmdb (profile_size (default profile_w185 size)) p
              else "/placeholder-person.jpg"
  | None => "/placeholder-person.jpg"
  end.

Definition getYouTubeUrl (key : string) : string :=
  "https://www.youtube.com/watch?v=" +:+ key.

Definition getYouTubeThumbnail (key : string) : string :=
  "https://img.youtube.com/vi/" +:+ key +:+ "/hqdefault.jpg".



End ApiCatalogue.

(** An endpoint call that rejects with [error] on some browser. *)
Definition rejects_with {A} (c : Async Browser A) (error : JsError) : Prop :=
  ∃ b b', c b = (Rejected error, b').

(** Readings for the examples: every response describes [movie42]. *)
Definition example_readings : Readings := {|
  as_movie := λ _, movie42;
  as_movies := λ _, [movie42];
  as_movie_response := λ _, MovieResponse.mk 1 [movie42] 1 1;
  as_recommendation_response :=
    λ _, MovieRecommendationResponse.mk 42 [movie7] 1;
|}.

(** ** Reading a query string back

    The decoder of application/x-www-form-urlencoded, the inverse the
    serialiser is measured against: [+] is a space, [%XX] the byte with
    that code, a query string is split at [&] and each piece at [=]. *)
Definition unhex (c : Ascii.ascii) : N :=
  let n := Ascii.N_of_ascii c in
  if (n <? 58)%N then (n - 48)%N else (n - 55)%N.

Fixpoint form_decode (s : string) : string :=
  match s with
  | EmptyString => EmptyString
  | String c rest =>
      if (Ascii.N_of_ascii c =? 43)%N
      then String (Ascii.ascii_of_N 32) (form_decode rest)
      else if (Ascii.N_of_ascii c =? 37)%N then
        match rest with
        | String h (String l rest') =>
            String (Ascii.ascii_of_N (16 * unhex h + unhex l))
              (form_decode rest')
        | _ => String c (form_decode rest)
        end
      else String c (form_decode rest)
  end.

Fixpoint split_on (c : Ascii.ascii) (s : string) : list string :=
  match s with
  | EmptyString => [EmptyString]
  | String c' s' =>
      if decide (c' = c) then EmptyString :: split_on c s'
      else match split_on c s' with
           | [] => [String c' EmptyString]
           | piece :: pieces => String c' piece :: pieces
           end
  end.

Definition ampersand : Ascii.ascii := Ascii.ascii_of_N 38.
Definition equals_sign : Ascii.ascii := Ascii.ascii_of_N 61.

Definition parse_pair (piece : string) : string * string :=
  match split_on equals_sign piece with
  | [name; value] => (form_decode name, form_decode value)
  | _ => (form_decode piece, EmptyString)
  end.

Definition parse_query (s : string) : list (string * string) :=
  match s with
  | EmptyString => []
  | _ => parse_pair <$> split_on ampersand s
  end.

(** ** Every operation of the two stores, as data *)

Section StoreRuns.
Context `{JSON}.

Inductive AppOp :=
| LoadFavorites
| AddToFavorites (movie : Movie.t)
| RemoveFromFavorites (movieId : Z)
| AddToWatchlist (movie : Movie.t)
| RemoveFromWatchlist (movieId : Z)
| AddToRecentlyViewed (movie : Movie.t)
| ClearRecentlyViewed
| AddToSearchHistory (q : query)
| ClearSearchHistory
| ClearAll.

Definition app_op (op : AppOp) : Async World unit :=
  match op with
  | LoadFavorites => useAppStore.loadFavorites
  | AddToFavorites movie => useAppStore.addToFavorites movie
  | RemoveFromFavorites movieId => useAppStore.removeFromFavorites movieId
  | AddToWatchlist movie => useAppStore.addToWatchlist movie
  | RemoveFromWatchlist movieId => useAppStore.removeFromWatchlist movieId
  | AddToRecentlyViewed movie => useAppStore.addToRecentlyViewed movie
  | ClearRecentlyViewed => useAppStore.clearRecentlyViewed
  | AddToSearchHistory q => useAppStore.addToSearchHistory q
  | ClearSearchHistory => useAppStore.clearSearchHistory
  | ClearAll => useAppStore.clearAll
  end.

(** The operations of the app store whose body never names
    [apiService]: all but the three on favorites and [clearAll], which
    empties the cached favorites too. *)
Definition on_device (op : AppOp) : bool :=
  match op with
  | LoadFavorites | AddToFavorites _ | RemoveFromFavorites _ | ClearAll => false
  | _ => true
  end.

Definition store_op (op : AuthOp + AppOp) : Async World unit :=
  match op with
  | inl op => auth_op op
  | inr op => app_op op
  end.

Definition store_ops (ops : list (AuthOp + AppOp)) (w : World) : World :=
  foldl (λ w op, exec (store_op op) w) w ops.

(** Both persisted records say what their store holds. *)
Definition records_in_step (w : World) : Prop :=
  storage_lookup "auth-storage" (browser w)
  = Some (useAuthStore.partialize (auth w))
  ∧ storage_lookup "app-storage" (browser w)
    = Some (useAppStore.partialize (app w)).

End StoreRuns.

(** What an operation that stays on the device leaves alone: the server
    and the requests sent, the session, the cached favorites, the page
    address and every storage key but the app store's record. *)
Definition stays_on_device (w w' : World) : Prop :=
  net (browser w') = net (browser w)
  ∧ sent (browser w') = sent (browser w)
  ∧ auth w' = auth w
  ∧ AppState.favorites (app w') = AppState.favorites (app w)
  ∧ location_href <$> window (browser w') = location_href <$> window (browser w)
  ∧ ∀ key, key ≠ "app-storage" →
      storage_lookup key (browser w') = storage_lookup key (browser w).

(** An operation keeps the records in step: if they said what the stores
    held before, they say what the stores hold after. *)
Definition stays_in_step `{JSON} : relation World :=
  λ w w', records_in_step w → records_in_step w'.

(** ** The movie card ([components/MovieCard.tsx]) *)


Module MovieCard.

(** The props the handlers read.  [onRemoveFromFavoritesProp] is called
    in place and not awaited. *)
Record Props := mkProps {
  movie : Movie.t;
  isFavoriteProp : option bool;
  onRemoveFromFavoritesProp : option (Z → Async World unit);
}.







Section Handlers.
Context `{JSON} `{Readings}.

(** [isFavoriteProp !== undefined ? isFavoriteProp
      : favorites.some(fav => fav.id === movie.id)], on the stores as the
    card's last render saw them. *)
Definition isFavorite (props : Props) (w : World) : bool :=
  match isFavoriteProp props with
  | Some v => v
  | None =>
      existsb (λ fav, FavoriteMovie.id fav =? Movie.id (movie props))
        (AppState.favorites (app w))
  end.




End Handlers.
End MovieCard.

(** What a request says, apart from its headers. *)
Definition request_line (config : Config) : Method * string * Body :=
  (method config, url config, data config).

(** ** The movie store ([useMovieStore], not persisted) *)

Module MovieState.
Record t := mk {
  selectedMovie : option Movie.t;
  movieRecommendations : list Movie.t;
  isLoading : bool;
}.
End MovieState.

Module useMovieStore.
Section Store.
Context `{Readings}.

Definition initial : MovieState.t := MovieState.mk None [] false.

(** The store sees the browser behind the gateway and its own state. *)
Definition set (f : MovieState.t → MovieState.t)
    : Async (Browser * MovieState.t) unit :=
  modify (λ s, (s.1, f s.2)).

Definition on_gateway {A} (c : Async Browser A) : Async (Browser * MovieState.t) A :=
  λ s, let '(o, b) := c s.1 in (o, (b, s.2)).

Definition set_isLoading (v : bool) (state : MovieState.t) : MovieState.t :=
  MovieState.mk (MovieState.selectedMovie state)
    (MovieState.movieRecommendations state) v.

Definition setSelectedMovie (movie : option Movie.t)
    : Async (Browser * MovieState.t) unit :=
  set (λ state,
    MovieState.mk movie (MovieState.movieRecommendations state)
      (MovieState.isLoading state)).

Definition loadMovieRecommendations (movieId : Z)
    : Async (Browser * MovieState.t) unit :=
  try_catch
    (set (set_isLoading true);;
     await response <-
       on_gateway (ApiCatalogue.getMovieRecommendations movieId None);
     set (λ state,
       MovieState.mk (MovieState.selectedMovie state)
         (MovieRecommendationResponse.recommendations response) false))
    (λ _, set (set_isLoading false)).

End Store.
End useMovieStore.

(** ** The pages that talk to the server on their own

    The login page and the favourites page call [axios] directly, with
    no interceptor, and keep their token under a key of their own. *)

(** [localStorage.setItem(key, value)], in code that does not test for
    a window. *)
Definition setItem (key value : string) : Async Browser unit :=
  λ b, match window b with
       | Some win =>
           (Resolved tt,
            mkBrowser
              (Some (mkWindow (<[key := value]> (localStorage win))
                       (location_href win)))
              (net b) (sent b))
       | None => (Rejected (Error "localStorage is not defined"), b)
       end.

(** [router.push(path)]: the page address becomes [path]. *)
Definition router_push (path : string) : Async Browser unit := assign_href path.

Module LoginPage.

Definition handleLogin (username password : string) : Async Browser unit :=
  try_catch
    (await response <-
       dispatch
         (mkConfig POST "http://localhost:8000/api/token/"
            (LoginBody (LoginCredentials.mk username password)) None false);
     setItem "token" (AuthTokens.access (as_tokens (response_data response)));;
     router_push "/")
    (λ _, ret tt).

End LoginPage.

Module FavoritesPage.

(** The page's own state, the alerts it has raised (oldest first) and
    the browser it runs in. *)
Record Page := mkPage {
  page_browser : Browser;
  favorites : list FavoriteMovie.t;
  token : option string;
  alerts : list string;
}.

Definition on_browser {A} (c : Async Browser A) : Async Page A :=
  λ p, let '(o, b) := c (page_browser p) in
       (o, mkPage b (favorites p) (token p) (alerts p)).

Definition setFavorites (v : list FavoriteMovie.t) : Async Page unit :=
  modify (λ p, mkPage (page_browser p) v (token p) (alerts p)).

Definition setToken (v : option string) : Async Page unit :=
  modify (λ p, mkPage (page_browser p) (favorites p) v (alerts p)).

Definition alert (message : string) : Async Page unit :=
  modify (λ p,
    mkPage (page_browser p) (favorites p) (token p) (alerts p ++ [message])).

Definition authorized (config : Config) (token : string) : Config :=
  mkConfig (method config) (url config) (data config)
    (Some ("Bearer " +:+ token)) (_retry config).

Definition fetchFavorites (storedToken : string) : Async Page unit :=
  try_catch
    (await response <-
       on_browser
         (dispatch
            (authorized
               (mkConfig GET "http://localhost:8000/api/favorites/" NoBody
                  None false)
               storedToken));
     setFavorites (as_favorites (response_data response)))
    (λ _, ret tt).

(** The body of the page's effect. *)
Definition effect : Async Page unit :=
  await storedToken <- gets (λ p, storage_lookup "token" (page_browser p));
  setToken storedToken;;
  match storedToken with
  | Some stored =>
      if truthy storedToken then fetchFavorites stored
      else on_browser (router_push "/login")
  | None => on_browser (router_push "/login")
  end.

(** [token] and [favorites] are the values of the render the handler
    was created in. *)
Definition handleRemoveFromFavorites (id : Z) : Async Page unit :=
  await token <- gets token;
  await favorites <- gets favorites;
  match token with
  | Some held =>
      if truthy token then
        try_catch
          (on_browser
             (dispatch
                (authorized
                   (mkConfig DELETE
                      ("http://localhost:8000/api/favorites/" +:+ pretty id
                       +:+ "/")
                      NoBody None false)
                   held));;
           setFavorites (filter (λ fav, FavoriteMovie.id fav ≠ id) favorites);;
           alert "Movie removed from favorites!")
          (λ _, alert "Failed to remove movie from favorites.")
      else ret tt
  | None => ret tt
  end.

End FavoritesPage.

(** An operation on the world leaves a storage key as it was. *)
Definition world_keeps_key (key : string) : relation World :=
  λ w w', keeps_key key (browser w) (browser w').

(** The storage keys neither the gateway nor a store ever writes. *)
Definition unowned_key (key : string) : Prop :=
  foreign_key key ∧ key ≠ "auth-storage" ∧ key ≠ "app-storage".

(** A refresh reply whose access token is the empty string. *)
Definition blank_token_data : ResponseData :=
  mkResponseData (AuthTokens.mk EmptyString "refresh-1") alice alice favorite42
    [favorite42].


(** Storage whose user entry is the JSON document [null]. *)
Definition storage_with_null_user : gmap string string :=
  <["user" := "null"]>
    (<["refresh_token" := "refresh-0"]> (<["access_token" := "access-0"]> ∅)).

(** * Properties *)

(** ** Capped most-recent-first lists *)

Lemma NoDup_reverse {A} (l : list A) : NoDup l → NoDup (reverse l).
Proof. by rewrite reverse_Permutation. Qed.

Section MostRecentFirstFacts.
Context {A K : Type} `{EqDecision K} (key : A → K).

Lemma latest_accesses_snoc (log : list A) (x : A) :
  latest_accesses key (log ++ [x])
  = filter (λ y, key y ≠ key x) (latest_accesses key log) ++ [x].
Proof.
  induction log as [|y log IH].
  - rewrite app_nil_l. cbn [latest_accesses].
    case_decide as Hin; [by apply elem_of_nil in Hin | done].
  - rewrite <- app_comm_cons. cbn [latest_accesses].
    rewrite IH, fmap_app. change (key <$> [x]) with [key x].
    destruct (decide (key y = key x)) as [Heq | Hne].
    + rewrite decide_True
        by (apply elem_of_app; right; rewrite Heq; apply list_elem_of_here).
      case_decide; [done|].
      rewrite filter_cons_False; [done | intros Hn; by apply Hn].
    + destruct (decide (key y ∈ key <$> log)) as [Hin | Hnin].
      * by rewrite decide_True by (apply elem_of_app; by left).
      * rewrite decide_False.
        -- by rewrite filter_cons_True.
        -- rewrite elem_of_app, list_elem_of_singleton. by intros [?|?].
Qed.

Lemma latest_accesses_sublist (log : list A) :
  latest_accesses key log `sublist_of` log.
Proof.
  induction log as [|y log IH]; simpl; [done|].
  destruct (decide _); [by apply sublist_cons | by apply sublist_skip].
Qed.

Lemma latest_accesses_NoDup (log : list A) :
  NoDup (key <$> latest_accesses key log).
Proof.
  induction log as [|y log IH]; simpl; [constructor|].
  destruct (decide _) as [Hin | Hnin]; [done|].
  rewrite fmap_cons. apply NoDup_cons. split; [|done].
  intros Hin. apply Hnin.
  eapply elem_of_sublist; [exact Hin|].
  apply fmap_sublist, latest_accesses_sublist.
Qed.

Lemma latest_accesses_fixed (l : list A) :
  NoDup (key <$> l) → latest_accesses key l = l.
Proof.
  induction l as [|y l IH]; [done|].
  rewrite fmap_cons, NoDup_cons. intros [Hnin Hnd].
  cbn [latest_accesses]. destruct (decide _) as [Hin|_]; [done|].
  by rewrite IH.
Qed.

Lemma filter_key_absent (k : K) (l : list A) :
  k ∉ key <$> l → filter (λ y, key y ≠ k) l = l.
Proof.
  induction l as [|y l IH]; [done|].
  rewrite fmap_cons, not_elem_of_cons. intros [Hne Hnin].
  rewrite filter_cons_True by congruence. by rewrite IH.
Qed.

(** Dropping one key from a duplicate-free list shortens it by at most
    one, so the cut may come before or after. *)
Lemma take_filter_key (k : K) (n : nat) (l : list A) :
  NoDup (key <$> l) →
  take n (filter (λ y, key y ≠ k) (take (S n) l))
  = take n (filter (λ y, key y ≠ k) l).
Proof.
  revert n. induction l as [|y l IH]; intros n; [done|].
  rewrite fmap_cons, NoDup_cons. intros [Hnin Hnd].
  change (take (S n) (y :: l)) with (y :: take n l).
  destruct (decide (key y = k)) as [Heq | Hne].
  - rewrite !filter_cons_False by (intros Hn; by apply Hn).
    subst k. rewrite (filter_key_absent _ l) by done.
    rewrite filter_key_absent.
    + by rewrite take_idemp.
    + intros Hin. apply Hnin. eapply elem_of_sublist; [exact Hin|].
      apply fmap_sublist, sublist_take.
  - rewrite !filter_cons_True by done.
    destruct n as [|n]; [done|]. simpl. f_equal. by apply IH.
Qed.

Lemma most_recent_first_touch (n : nat) (log : list A) (x : A) :
  take (S n) (x :: filter (λ y, key y ≠ key x) (most_recent_first key (S n) log))
  = most_recent_first key (S n) (log ++ [x]).
Proof.
  unfold most_recent_first.
  rewrite latest_accesses_snoc, reverse_app, reverse_singleton. simpl.
  f_equal. rewrite <- filter_reverse. apply take_filter_key.
  rewrite fmap_reverse. apply NoDup_reverse, latest_accesses_NoDup.
Qed.

Lemma most_recent_first_NoDup (cap : nat) (log : list A) :
  NoDup (key <$> most_recent_first key cap log).
Proof.
  unfold most_recent_first.
  eapply sublist_NoDup; [|apply fmap_sublist, sublist_take].
  rewrite fmap_reverse. apply NoDup_reverse, latest_accesses_NoDup.
Qed.

Lemma most_recent_first_valid (cap : nat) (l : list A) :
  NoDup (key <$> l) → (length l ≤ cap)%nat →
  most_recent_first key cap (reverse l) = l.
Proof.
  intros Hnd Hlen. unfold most_recent_first.
  rewrite latest_accesses_fixed.
  - rewrite reverse_involutive. by apply take_ge.
  - rewrite fmap_reverse. by apply NoDup_reverse.
Qed.

End MostRecentFirstFacts.

(** ** White space and [trim] *)

Lemma trimStart_blank (q : query) : trimStart q = [] ↔ blank q.
Proof.
  unfold blank. induction q as [|c q IH]; simpl.
  - split; [constructor | done].
  - destruct (is_white_space c) eqn:Hc.
    + rewrite IH, Forall_cons. tauto.
    + split; [done|]. rewrite Forall_cons, Hc. by intros [? _].
Qed.

Lemma blank_trimStart (q : query) : blank (trimStart q) ↔ blank q.
Proof.
  unfold blank. induction q as [|c q IH]; simpl; [done|].
  destruct (is_white_space c) eqn:Hc; [|done].
  rewrite IH, Forall_cons. tauto.
Qed.

Lemma trim_blank (q : query) : nonempty (trim q) = false ↔ blank q.
Proof.
  assert (Hnil : ∀ l : query, nonempty l = false ↔ l = []).
  { intros [|? ?]; simpl; split; congruence. }
  rewrite Hnil. unfold trim, trimEnd.
  rewrite <- (reverse_nil (A:=N)).
  split.
  - intros Heq. apply (inj reverse) in Heq.
    apply trimStart_blank in Heq. unfold blank in Heq.
    rewrite Forall_reverse in Heq. by apply blank_trimStart.
  - intros Hb. f_equal. apply trimStart_blank. unfold blank.
    rewrite Forall_reverse. by apply blank_trimStart.
Qed.

(** ** The local collections *)

Section Collections.
Context `{JSON}.

Lemma addToRecentlyViewed_state (movie : Movie.t) (w : World) :
  AppState.recentlyViewed (app (exec (useAppStore.addToRecentlyViewed movie) w))
  = take 50 (movie :: filter (λ m, Movie.id m ≠ Movie.id movie)
                        (AppState.recentlyViewed (app w))).
Proof. reflexivity. Qed.

Lemma addToSearchHistory_state (q : query) (w : World) :
  nonempty (trim q) = true →
  AppState.searchHistory (app (exec (useAppStore.addToSearchHistory q) w))
  = take 20 (q :: filter (λ q', q' ≠ q) (AppState.searchHistory (app w))).
Proof. intros Hq. unfold useAppStore.addToSearchHistory. by rewrite Hq. Qed.

Lemma addToRecentlyViewed_all_state (movies : list Movie.t) (w : World) :
  recentlyViewed_valid (AppState.recentlyViewed (app w)) →
  AppState.recentlyViewed (app (addToRecentlyViewed_all movies w))
  = most_recent_first Movie.id 50
      (reverse (AppState.recentlyViewed (app w)) ++ movies).
Proof.
  intros [Hnd Hlen]. induction movies as [|movie movies IH] using rev_ind.
  - rewrite app_nil_r. symmetry. by apply most_recent_first_valid.
  - unfold addToRecentlyViewed_all in *. rewrite foldl_snoc.
    rewrite addToRecentlyViewed_state, IH, app_assoc.
    apply (most_recent_first_touch Movie.id 49).
Qed.

Lemma addToSearchHistory_all_state (queries : list query) (w : World) :
  searchHistory_valid (AppState.searchHistory (app w)) →
  Forall (λ q, ¬ blank q) queries →
  AppState.searchHistory (app (addToSearchHistory_all queries w))
  = most_recent_first (λ q : query, q) 20
      (reverse (AppState.searchHistory (app w)) ++ queries).
Proof.
  intros [Hnd Hlen]. induction queries as [|q queries IH] using rev_ind.
  - intros _. rewrite app_nil_r. symmetry.
    apply most_recent_first_valid; [by rewrite list_fmap_id | done].
  - rewrite Forall_app, Forall_singleton. intros [Hqs Hq].
    unfold addToSearchHistory_all in *. rewrite foldl_snoc.
    rewrite addToSearchHistory_state.
    + rewrite IH, app_assoc by done.
      apply (most_recent_first_touch (λ q : query, q) 19).
    + destruct (nonempty (trim q)) eqn:Hne; [done|].
      by apply trim_blank in Hne.
Qed.

End Collections.

(** ** Frame rules for the promise combinators *)

Section FrameRules.
Context {St : Type} (R : relation St) `{!PreOrder R}.

Lemma frames_ret {A} (a : A) : frames R (ret a).
Proof. intros s. simpl. reflexivity. Qed.

Lemma frames_throw {A} (e : JsError) : frames R (throw (A:=A) e).
Proof. intros s. simpl. reflexivity. Qed.

Lemma frames_gets {A} (f : St → A) : frames R (gets f).
Proof. intros s. simpl. reflexivity. Qed.

Lemma frames_modify (f : St → St) : (∀ s, R s (f s)) → frames R (modify f).
Proof. intros Hf s. apply Hf. Qed.

Lemma frames_bind {A B} (c : Async St A) (k : A → Async St B) :
  frames R c → (∀ a, frames R (k a)) → frames R (bind c k).
Proof.
  intros Hc Hk s. unfold bind. specialize (Hc s).
  destruct (c s) as [[a|e|] s']; simpl in *; [|done..].
  etrans; [exact Hc | apply Hk].
Qed.

Lemma frames_try_catch {A} (c : Async St A) (h : JsError → Async St A) :
  frames R c → (∀ e, frames R (h e)) → frames R (try_catch c h).
Proof.
  intros Hc Hh s. unfold try_catch. specialize (Hc s).
  destruct (c s) as [[a|e|] s']; simpl in *; [done| |done].
  etrans; [exact Hc | apply Hh].
Qed.

Lemma frames_if {A} (c : bool) (c1 c2 : Async St A) :
  frames R c1 → frames R c2 → frames R (if c then c1 else c2).
Proof. by destruct c. Qed.

End FrameRules.

(** ** What the gateway leaves alone *)

Section GatewayFrames.
Context (R : relation Browser) `{!PreOrder R}.
Hypothesis R_dispatch : ∀ config, frames R (dispatch config).
Hypothesis R_setTokens : ∀ tokens b, R b (ApiService.setTokens tokens b).
Hypothesis R_clearTokens : ∀ b, R b (ApiService.clearTokens b).
Hypothesis R_assign_href : ∀ href, frames R (assign_href href).

Lemma frames_refreshToken_via (call : Config → Async Browser Response) :
  (∀ config, frames R (call config)) →
  frames R (ApiService.refreshToken_via call).
Proof.
  intros Hcall. unfold ApiService.refreshToken_via.
  apply frames_try_catch; [done| |intros; by apply frames_throw].
  apply frames_bind; [done|by apply frames_gets|]. intros [token|].
  - apply frames_if; [|by apply frames_throw].
    apply frames_bind; [done|apply Hcall|]. intros response.
    apply frames_bind; [done|by apply frames_modify|]. intros _.
    by apply frames_ret.
  - by apply frames_throw.
Qed.

Lemma frames_response_rejected (call : Config → Async Browser Response)
    (error : JsError) :
  (∀ config, frames R (call config)) →
  frames R (ApiService.response_rejected call error).
Proof.
  intros Hcall. unfold ApiService.response_rejected.
  destruct error as [config [[status d]|]| |]; try by apply frames_throw.
  apply frames_if; [|by apply frames_throw].
  apply frames_bind; [done| |].
  - apply frames_try_catch; [done| |].
    + apply frames_bind; [done|by apply frames_refreshToken_via|].
      intros _. by apply frames_ret.
    + intros e. apply frames_bind; [done|by apply frames_modify|]. intros _.
      apply frames_bind; [done|apply R_assign_href|]. intros _.
      by apply frames_throw.
  - intros _. apply frames_bind; [done|by apply frames_gets|]. intros c.
    apply Hcall.
Qed.

Lemma frames_api_fuel (fuel : nat) (config : Config) :
  frames R (ApiService.api_fuel fuel config).
Proof.
  revert config. induction fuel as [|fuel IH]; intros config.
  - intros b. simpl. reflexivity.
  - simpl. apply frames_bind; [done|by apply frames_gets|]. intros c.
    apply frames_try_catch; [done|apply R_dispatch|]. intros e.
    by apply frames_response_rejected.
Qed.

Lemma frames_api (config : Config) : frames R (ApiService.api config).
Proof. intros b. apply frames_api_fuel. Qed.

Lemma frames_refreshToken : frames R ApiService.refreshToken.
Proof. apply frames_refreshToken_via, frames_api. Qed.

End GatewayFrames.

Lemma net_with_storage f (b : Browser) : net (with_storage f b) = net b.
Proof. unfold with_storage. by destruct (window b). Qed.

#[local] Instance net_shrinks_preorder : PreOrder net_shrinks.
Proof. split; unfold net_shrinks; [intros b; lia | intros b1 b2 b3; lia]. Qed.

#[local] Instance keeps_key_preorder key : PreOrder (keeps_key key).
Proof. split; unfold keeps_key; [done | intros b1 b2 b3; congruence]. Qed.

Lemma api_fuel_net_shrinks (fuel : nat) (config : Config) :
  frames net_shrinks (ApiService.api_fuel fuel config).
Proof.
  apply frames_api_fuel; try apply _.
  - intros c b. unfold net_shrinks, dispatch.
    destruct (net b) as [|[d|st d|] rest]; simpl; lia.
  - intros t b. unfold net_shrinks, ApiService.setTokens.
    by rewrite net_with_storage.
  - intros b. unfold net_shrinks, ApiService.clearTokens.
    by rewrite net_with_storage.
  - intros h b. unfold net_shrinks, assign_href.
    by destruct (window b).
Qed.

Lemma refreshToken_via_net_shrinks (call : Config → Async Browser Response) :
  (∀ config, frames net_shrinks (call config)) →
  frames net_shrinks (ApiService.refreshToken_via call).
Proof.
  apply frames_refreshToken_via; try apply _.
  intros t b. unfold net_shrinks, ApiService.setTokens.
  by rewrite net_with_storage.
Qed.

(** ** The fuel of [api_fuel] never runs out *)

Lemma dispatch_rejected (config : Config) (b b' : Browser) (e : JsError) :
  dispatch config b = (Rejected e, b') →
  S (length (net b')) = length (net b).
Proof.
  unfold dispatch. destruct (net b) as [|[d|st d|] rest]; intros [= <- <-]; done.
Qed.

Lemma refreshToken_via_agree (k : nat)
    (call1 call2 : Config → Async Browser Response) (b : Browser) :
  agree_upto k call1 call2 → (length (net b) ≤ k)%nat →
  ApiService.refreshToken_via call1 b = ApiService.refreshToken_via call2 b.
Proof.
  intros Hagree Hk.
  unfold ApiService.refreshToken_via, try_catch, bind, gets.
  destruct (ApiService.getRefreshToken b) as [token|]; [|done].
  destruct (truthy (Some token)); [|done].
  by rewrite (Hagree _ b Hk).
Qed.

Lemma response_rejected_agree (k : nat)
    (call1 call2 : Config → Async Browser Response) (error : JsError)
    (b : Browser) :
  agree_upto k call1 call2 →
  (∀ config, frames net_shrinks (call1 config)) →
  (length (net b) ≤ k)%nat →
  ApiService.response_rejected call1 error b
  = ApiService.response_rejected call2 error b.
Proof.
  intros Hagree Hshrinks Hk. unfold ApiService.response_rejected.
  destruct error as [config [[status d]|]| |]; try done.
  destruct ((status =? 401) && negb (_retry config)); [|done].
  pose proof (refreshToken_via_net_shrinks call1 Hshrinks b) as Hb.
  unfold net_shrinks in Hb.
  unfold try_catch, bind.
  rewrite <- (refreshToken_via_agree k call1 call2 b Hagree Hk).
  destruct (ApiService.refreshToken_via call1 b) as [[tokens|e|] b'];
    simpl in *; [|by destruct (assign_href _ _) as [[?|?|] ?]|done].
  apply Hagree. lia.
Qed.

Lemma api_fuel_enough (n m : nat) (config : Config) (b : Browser) :
  (length (net b) < n)%nat → (length (net b) < m)%nat →
  ApiService.api_fuel n config b = ApiService.api_fuel m config b.
Proof.
  revert m config b.
  induction n as [|n IH]; intros [|m] config b Hn Hm; try lia.
  cbn [ApiService.api_fuel].
  unfold bind, ApiService.request_interceptor, gets, try_catch.
  destruct (dispatch (ApiService.attach_token config b) b)
    as [[response|e|] b'] eqn:Hd; try done.
  apply dispatch_rejected in Hd.
  apply (response_rejected_agree (length (net b'))); [| |done].
  - intros c b1 Hb1. apply IH; lia.
  - intros c. apply api_fuel_net_shrinks.
Qed.

(** The equation of the axios instance: one pass through the request
    interceptor, the transport and the response interceptor, which in
    turn calls the same instance. *)
Lemma api_unfold (config : Config) (b : Browser) :
  ApiService.api config b
  = (await config <- ApiService.request_interceptor config;
     try_catch (dispatch config)
       (ApiService.response_rejected ApiService.api)) b.
Proof.
  unfold ApiService.api at 1. cbn [ApiService.api_fuel].
  unfold bind, ApiService.request_interceptor, gets, try_catch.
  destruct (dispatch (ApiService.attach_token config b) b)
    as [[response|e|] b'] eqn:Hd; try done.
  apply dispatch_rejected in Hd.
  apply (response_rejected_agree (length (net b'))); [| |done].
  - intros c b1 Hb1. unfold ApiService.api. apply api_fuel_enough; lia.
  - intros c. apply api_fuel_net_shrinks.
Qed.

(** ** The response interceptor *)

Lemma truthy_nonempty (s : string) : s ≠ EmptyString → truthy (Some s) = true.
Proof. by destruct s. Qed.

Lemma attach_token_retry (config : Config) (b : Browser) :
  _retry (ApiService.attach_token config b) = _retry config.
Proof.
  unfold ApiService.attach_token.
  destruct (ApiService.getToken b) as [token|]; [|done].
  by destruct (truthy (Some token)).
Qed.

Lemma dispatch_error_config (config : Config) (b b' : Browser) (e : JsError) :
  dispatch config b = (Rejected e, b') → ∃ r, e = AxiosError config r.
Proof.
  unfold dispatch. destruct (net b) as [|[d|st d|] rest]; intros [= <- <-]; eauto.
Qed.

(** A request that carries the [_retry] mark goes to the server once and
    its outcome is final. *)
Lemma api_marked (config : Config) (b : Browser) :
  _retry config = true →
  ApiService.api config b = dispatch (ApiService.attach_token config b) b.
Proof.
  intros Hretry. rewrite api_unfold.
  unfold bind, ApiService.request_interceptor, gets, try_catch.
  destruct (dispatch (ApiService.attach_token config b) b)
    as [[response|e|] b'] eqn:Hd; try done.
  destruct (dispatch_error_config _ _ _ _ Hd) as [r ->].
  unfold ApiService.response_rejected.
  destruct r as [[status d]|]; [|done].
  by rewrite attach_token_retry, Hretry, andb_false_r.
Qed.

(** The first pass of a request that is answered with 401. *)
Lemma api_unauthorized (config : Config) (b : Browser) (d : ErrorData)
    (rest : list Reply) :
  _retry config = false →
  net b = Failure 401 d :: rest →
  let first := ApiService.attach_token config b in
  let b1 := mkBrowser (window b) rest (sent b ++ [first]) in
  ApiService.api config b
  = (try_catch
       (ApiService.refreshToken;; ret tt)
       (λ refreshError,
         modify ApiService.logout;;
         assign_href "/login";;
         throw refreshError);;
     await originalRequest <-
       gets (ApiService.attach_token (ApiService.mark_retry first));
     ApiService.api originalRequest) b1.
Proof.
  intros Hretry Hnet first b1. rewrite api_unfold.
  unfold bind at 1, ApiService.request_interceptor, gets, try_catch at 1.
  fold first. unfold dispatch. rewrite Hnet. fold b1.
  unfold ApiService.response_rejected.
  replace (_retry first) with false
    by (unfold first; by rewrite attach_token_retry).
  done.
Qed.

#[local] Instance keeps_window_preorder : PreOrder keeps_window.
Proof.
  split.
  - intros b Hb. exact Hb.
  - intros b1 b2 b3 H12 H23 Hb. apply H23, H12, Hb.
Qed.

Lemma window_with_storage f (b : Browser) :
  is_Some (window b) → is_Some (window (with_storage f b)).
Proof. unfold with_storage. destruct (window b); by eauto. Qed.

Lemma dispatch_keeps_window (config : Config) :
  frames keeps_window (dispatch config).
Proof.
  intros b. unfold keeps_window, dispatch.
  by destruct (net b) as [|[d|st d|] rest].
Qed.

Lemma assign_href_keeps_window (href : string) :
  frames keeps_window (assign_href href).
Proof.
  intros b. unfold keeps_window, assign_href. destruct (window b); by eauto.
Qed.

Lemma api_keeps_window (config : Config) :
  frames keeps_window (ApiService.api config).
Proof.
  apply frames_api; try apply _.
  - apply dispatch_keeps_window.
  - intros t b Hb. by apply window_with_storage.
  - intros b Hb. by apply window_with_storage.
  - apply assign_href_keeps_window.
Qed.

Lemma refreshToken_keeps_window : frames keeps_window ApiService.refreshToken.
Proof.
  apply frames_refreshToken; try apply _.
  - apply dispatch_keeps_window.
  - intros t b Hb. by apply window_with_storage.
  - intros b Hb. by apply window_with_storage.
  - apply assign_href_keeps_window.
Qed.

Lemma storage_lookup_window (key : string) (b : Browser) (v : string) :
  storage_lookup key b = Some v → is_Some (window b).
Proof. unfold storage_lookup. destruct (window b); by eauto. Qed.

Lemma getToken_setTokens (tokens : AuthTokens.t) (b : Browser) :
  is_Some (window b) →
  ApiService.getToken (ApiService.setTokens tokens b)
  = Some (AuthTokens.access tokens).
Proof.
  intros [win Hwin].
  unfold ApiService.getToken, ApiService.setTokens, storage_lookup, with_storage.
  rewrite Hwin. simpl. by rewrite lookup_insert_ne, lookup_insert_eq.
Qed.

(** After a successful refresh the stored access token is the new one. *)
Lemma refreshToken_resolved (b b' : Browser) (tokens : AuthTokens.t) :
  ApiService.refreshToken b = (Resolved tokens, b') →
  ApiService.getToken b' = Some (AuthTokens.access tokens).
Proof.
  unfold ApiService.refreshToken, ApiService.refreshToken_via.
  unfold try_catch, bind, gets.
  destruct (ApiService.getRefreshToken b) as [token|] eqn:Htoken; [|done].
  destruct (truthy (Some token)); [|done].
  pose proof (api_keeps_window
    (ApiService.post "/token/refresh/" (RefreshBody token)) b) as Hwin.
  destruct (ApiService.api _ b) as [[response|e|] b1]; simpl in *; [|done..].
  intros [= <- <-]. apply getToken_setTokens, Hwin.
  by eapply storage_lookup_window.
Qed.

(** What the request interceptor leaves of a request: everything but
    the [Authorization] header, which becomes [Bearer] and the stored
    access token when that token is not empty. *)
Lemma attach_token_fields (config : Config) (b : Browser) :
  ApiService.attach_token config b
  = mkConfig (method config) (url config) (data config)
      (match ApiService.getToken b with
       | Some token =>
           if truthy (Some token) then Some ("Bearer " +:+ token)
           else Authorization config
       | None => Authorization config
       end)
      (_retry config).
Proof.
  unfold ApiService.attach_token.
  destruct (ApiService.getToken b) as [token|]; [|by destruct config].
  destruct (truthy (Some token)); [done | by destruct config].
Qed.

(** C2. A request answered with 401, followed by a refresh that
    succeeds, is dispatched once more: the same method, URL and body,
    the [_retry] mark, and as [Authorization] header [Bearer] and the new
    access token when that token is not empty; when it is empty the
    header the request was first sent with stays.  The outcome of that
    one dispatch is the caller's outcome: its response when the server
    accepts it, its error when the server refuses it again (a second 401
    included).  Nothing else is sent for it: a request that carries the
    mark is never retried. *)
Theorem retried_once_after_refresh (config : Config) (b b2 : Browser)
    (d : ErrorData) (rest : list Reply) (tokens : AuthTokens.t) :
  _retry config = false →
  net b = Failure 401 d :: rest →
  let first := ApiService.attach_token config b in
  let b1 := mkBrowser (window b) rest (sent b ++ [first]) in
  ApiService.refreshToken b1 = (Resolved tokens, b2) →
  let sent_with :=
    match ApiService.getToken b with
    | Some old =>
        if truthy (Some old) then Some ("Bearer " +:+ old)
        else Authorization config
    | None => Authorization config
    end in
  let retried :=
    mkConfig (method config) (url config) (data config)
      (if truthy (Some (AuthTokens.access tokens))
       then Some ("Bearer " +:+ AuthTokens.access tokens)
       else sent_with)
      true in
  let b3 rest' := mkBrowser (window b2) rest' (sent b2 ++ [retried]) in
  first
  = mkConfig (method config) (url config) (data config) sent_with false
  ∧ ApiService.api config b = dispatch retried b2
  ∧ sent (dispatch retried b2).2 = sent b2 ++ [retried]
  ∧ (∀ d' rest', net b2 = Success d' :: rest' →
       ApiService.api config b = (Resolved (mkResponse d' retried), b3 rest'))
  ∧ (∀ status d' rest', net b2 = Failure status d' :: rest' →
       ApiService.api config b
       = (Rejected (AxiosError retried (Some (status, d'))), b3 rest'))
  ∧ (∀ marked b', _retry marked = true →
       ApiService.api marked b'
       = dispatch (ApiService.attach_token marked b') b').
Proof.
  intros Hretry Hnet first b1 Hrefresh sent_with retried b3.
  assert (Hfirst : first
    = mkConfig (method config) (url config) (data config) sent_with false).
  { unfold first. by rewrite attach_token_fields, Hretry. }
  split; [exact Hfirst|].
  cut (ApiService.api config b = dispatch retried b2
       ∧ sent (dispatch retried b2).2 = sent b2 ++ [retried]
       ∧ (∀ d' rest', net b2 = Success d' :: rest' →
            ApiService.api config b
            = (Resolved (mkResponse d' retried), b3 rest'))
       ∧ (∀ status d' rest', net b2 = Failure status d' :: rest' →
            ApiService.api config b
            = (Rejected (AxiosError retried (Some (status, d'))), b3 rest'))).
  { intros (H1 & H2 & H3 & H4). repeat split; try done.
    intros marked b' Hmarked. by apply api_marked. }
  assert (Hcall : ApiService.api config b = dispatch retried b2).
  { rewrite (api_unauthorized config b d rest Hretry Hnet).
    fold first b1. unfold bind at 1 2, try_catch. unfold bind at 1.
    rewrite Hrefresh. simpl. unfold bind, gets.
    pose proof (refreshToken_resolved _ _ _ Hrefresh) as Htoken.
    assert (Hattach : ApiService.attach_token (ApiService.mark_retry first) b2
                      = retried).
    { rewrite attach_token_fields, Htoken, Hfirst. unfold retried.
      cbn [ApiService.mark_retry method url data Authorization _retry].
      by destruct (truthy (Some (AuthTokens.access tokens))). }
    rewrite Hattach, api_marked by done.
    f_equal. rewrite attach_token_fields, Htoken. unfold retried.
    cbn [method url data Authorization _retry].
    by destruct (truthy (Some (AuthTokens.access tokens))). }
  split; [done|]. rewrite Hcall. unfold dispatch.
  split; [by destruct (net b2) as [|[?|??|] ?]|].
  split; [intros d' rest' Hnet2 | intros status d' rest' Hnet2];
    by rewrite Hnet2.
Qed.

Lemma retried_once_after_refresh_witness :
  let config := ApiService.get "/favorites/" in
  let first := mkConfig GET "/favorites/" NoBody (Some "Bearer access-0") false in
  let retried := mkConfig GET "/favorites/" NoBody (Some "Bearer access-1") true in
  _retry config = false
  ∧ ApiService.refreshToken
      (mkBrowser (window expired_browser)
         [Success example_data; Success example_data] [first])
    = (Resolved new_tokens, refreshed_browser)
  ∧ ApiService.api config expired_browser
    = (Resolved (mkResponse example_data retried),
       mkBrowser (window refreshed_browser) []
         (sent refreshed_browser ++ [retried])).
Proof.
  intros config first retried.
  assert (Hrefresh :
    ApiService.refreshToken
      (mkBrowser (window expired_browser)
         [Success example_data; Success example_data] [first])
    = (Resolved new_tokens, refreshed_browser)) by (vm_compute; reflexivity).
  split; [reflexivity|]. split; [exact Hrefresh|].
  destruct (retried_once_after_refresh config expired_browser refreshed_browser
              no_error_data [Success example_data; Success example_data]
              new_tokens eq_refl eq_refl Hrefresh)
    as (_ & _ & _ & Haccepted & _).
  exact (Haccepted example_data [] eq_refl).
Defined.

(** C2 as stated fails when the refreshed access token is the empty
    string: the refresh succeeds and stores it, the request is retried
    and answered, and the retried request still carries the bearer of the
    token that was refused, not the new token. *)
Lemma retry_keeps_old_bearer_on_empty_token :
  let config := ApiService.get "/favorites/" in
  let b := example_browser signed_in_storage
             [Failure 401 no_error_data; Success blank_token_data;
              Success example_data] in
  let run := ApiService.api config b in
  let new_access := AuthTokens.access (as_tokens blank_token_data) in
  ApiService.getToken b = Some "access-0"
  ∧ ApiService.getToken run.2 = Some new_access
  ∧ run.1
    = Resolved
        (mkResponse example_data
           (mkConfig GET "/favorites/" NoBody (Some "Bearer access-0") true))
  ∧ (url <$> sent run.2) = ["/favorites/"; "/token/refresh/"; "/favorites/"]
  ∧ last (Authorization <$> sent run.2) = Some (Some "Bearer access-0")
  ∧ last (Authorization <$> sent run.2) ≠ Some (Some ("Bearer " +:+ new_access)).
Proof.
  intros config b run new_access.
  split; [vm_compute; reflexivity|]. split; [vm_compute; reflexivity|].
  split; [vm_compute; reflexivity|]. split; [vm_compute; reflexivity|].
  split; [vm_compute; reflexivity|]. vm_compute. discriminate.
Qed.

(** ** The capped collections of [useAppStore] *)

Section CollectionClaims.
Context `{JSON}.

(** C6. From a valid recently-viewed sequence, any sequence of
    [addToRecentlyViewed] calls leaves a sequence without duplicate movie
    ids, of length at most 50, that is the most-recent-first view of the
    accesses (the initial entries being the oldest); and each call puts
    its movie at the front, before the other entries in their former
    order. *)
Theorem addToRecentlyViewed_most_recent_first (movies : list Movie.t)
    (w : World) :
  recentlyViewed_valid (AppState.recentlyViewed (app w)) →
  let viewed w := AppState.recentlyViewed (app w) in
  let after := viewed (addToRecentlyViewed_all movies w) in
  NoDup (Movie.id <$> after)
  ∧ (length after ≤ 50)%nat
  ∧ after = most_recent_first Movie.id 50 (reverse (viewed w) ++ movies)
  ∧ ∀ movie w',
      viewed (exec (useAppStore.addToRecentlyViewed movie) w')
      = movie :: take 49 (filter (λ m, Movie.id m ≠ Movie.id movie) (viewed w')).
Proof.
  intros Hvalid viewed after.
  assert (Hafter : after = most_recent_first Movie.id 50
                             (reverse (viewed w) ++ movies))
    by (by apply addToRecentlyViewed_all_state).
  split; [rewrite Hafter; apply most_recent_first_NoDup|].
  split; [rewrite Hafter; unfold most_recent_first; rewrite length_take; lia|].
  split; [done|]. intros movie w'. apply addToRecentlyViewed_state.
Qed.

(** C7. From a valid search history, any sequence of [addToSearchHistory]
    calls with non-blank queries leaves a history without duplicates, of
    length at most 20, that is the most-recent-first view of the queries;
    and a call with a blank query changes nothing at all. *)
Theorem addToSearchHistory_most_recent_first (queries : list query)
    (w : World) :
  searchHistory_valid (AppState.searchHistory (app w)) →
  Forall (λ q, ¬ blank q) queries →
  let history w := AppState.searchHistory (app w) in
  let after := history (addToSearchHistory_all queries w) in
  NoDup after
  ∧ (length after ≤ 20)%nat
  ∧ after = most_recent_first (λ q : query, q) 20 (reverse (history w) ++ queries)
  ∧ ∀ q w', blank q → exec (useAppStore.addToSearchHistory q) w' = w'.
Proof.
  intros Hvalid Hqueries history after.
  assert (Hafter : after = most_recent_first (λ q : query, q) 20
                             (reverse (history w) ++ queries))
    by (by apply addToSearchHistory_all_state).
  split.
  { rewrite Hafter, <- (list_fmap_id (most_recent_first _ _ _)).
    apply (most_recent_first_NoDup (λ q : query, q)). }
  split; [rewrite Hafter; unfold most_recent_first; rewrite length_take; lia|].
  split; [done|]. intros q w' Hblank.
  apply trim_blank in Hblank. unfold useAppStore.addToSearchHistory.
  by rewrite Hblank.
Qed.

End CollectionClaims.

Lemma addToRecentlyViewed_most_recent_first_witness :
  recentlyViewed_valid []
  ∧ AppState.recentlyViewed
      (app (addToRecentlyViewed_all (H:=example_json) [movie42; movie7; movie42]
              (example_world (example_browser ∅ []))))
    = [movie42; movie7].
Proof.
  split; [split; [constructor | simpl; lia]|].
  etrans.
  - apply (addToRecentlyViewed_most_recent_first (H:=example_json)
             [movie42; movie7; movie42] (example_world (example_browser ∅ []))).
    split; [constructor | simpl; lia].
  - vm_compute. reflexivity.
Defined.

Lemma addToSearchHistory_most_recent_first_witness :
  let dune : query := [100; 117; 110; 101]%N in
  let heat : query := [104; 101; 97; 116]%N in
  searchHistory_valid []
  ∧ Forall (λ q, ¬ blank q) [dune; heat; dune]
  ∧ AppState.searchHistory
      (app (addToSearchHistory_all (H:=example_json) [dune; heat; dune]
              (example_world (example_browser ∅ []))))
    = [dune; heat].
Proof.
  intros dune heat.
  assert (Hvalid : searchHistory_valid []) by (split; [constructor | simpl; lia]).
  assert (Hqueries : Forall (λ q, ¬ blank q) [dune; heat; dune]).
  { repeat constructor; intros Hb; by inversion Hb. }
  split; [done|]. split; [done|].
  etrans.
  - by apply (addToSearchHistory_most_recent_first (H:=example_json)
                [dune; heat; dune] (example_world (example_browser ∅ []))).
  - vm_compute. reflexivity.
Defined.

(** ** The watchlist *)

Lemma existsb_movie_id (k : Z) (l : list Movie.t) :
  existsb (λ m, Movie.id m =? k) l = true ↔ k ∈ Movie.id <$> l.
Proof.
  induction l as [|m l IH].
  - simpl. split; [done | by intros ?%elem_of_nil].
  - cbn [existsb]. rewrite fmap_cons, orb_true_iff, IH, elem_of_cons, Z.eqb_eq.
    split; (intros [Heq|Hin]; [left; by symmetry | by right]).
Qed.

Lemma filter_key_none {A K} `{EqDecision K} (key : A → K) (k : K) (l : list A) :
  k ∉ key <$> l → filter (λ y, key y = k) l = [].
Proof.
  induction l as [|y l IH]; [done|].
  rewrite fmap_cons, not_elem_of_cons. intros [Hne Hnin].
  rewrite filter_cons_False by congruence. by apply IH.
Qed.

Lemma filter_key_once {A K} `{EqDecision K} (key : A → K) (k : K) (l : list A) :
  NoDup (key <$> l) → k ∈ key <$> l →
  length (filter (λ y, key y = k) l) = 1%nat.
Proof.
  induction l as [|y l IH]; [by intros _ ?%elem_of_nil|].
  rewrite fmap_cons, NoDup_cons, elem_of_cons. intros [Hnin Hnd] Hin.
  destruct (decide (key y = k)) as [Heq | Hne].
  - rewrite filter_cons_True by done. simpl. f_equal.
    rewrite filter_key_none; [done | by rewrite <- Heq].
  - rewrite filter_cons_False by done. apply IH; [done|].
    by destruct Hin as [->|Hin].
Qed.

Section Watchlist.
Context `{JSON}.

Lemma addToWatchlist_state (movie : Movie.t) (w : World) :
  let w' := exec (useAppStore.addToWatchlist movie) w in
  if useAppStore.isInWatchlist (Movie.id movie) w then
    AppState.watchlist (app w') = AppState.watchlist (app w)
    ∧ toasts w' = toasts w ++ [toast "Ce film est déjà dans votre liste à regarder"]
  else
    AppState.watchlist (app w') = AppState.watchlist (app w) ++ [movie]
    ∧ toasts w' = toasts w ++ [toast_success "Film ajouté à votre liste à regarder!"].
Proof.
  unfold useAppStore.isInWatchlist, useAppStore.addToWatchlist, exec, bind, gets.
  by destruct (existsb _ _).
Qed.

(** The watchlist holds one entry per movie id, whatever is added. *)
Lemma addToWatchlist_NoDup (movie : Movie.t) (w : World) :
  NoDup (Movie.id <$> AppState.watchlist (app w)) →
  NoDup (Movie.id <$> AppState.watchlist
                        (app (exec (useAppStore.addToWatchlist movie) w))).
Proof.
  intros Hnd. pose proof (addToWatchlist_state movie w) as Hstate.
  simpl in Hstate. unfold useAppStore.isInWatchlist in Hstate.
  destruct (existsb _ _) eqn:Hin; destruct Hstate as [-> _]; [done|].
  rewrite fmap_app. apply NoDup_app. split; [done|].
  split; [|apply NoDup_singleton].
  intros k Hk ->%list_elem_of_singleton.
  apply existsb_movie_id in Hk. congruence.
Qed.

Lemma removeFromWatchlist_NoDup (movieId : Z) (w : World) :
  NoDup (Movie.id <$> AppState.watchlist (app w)) →
  NoDup (Movie.id <$> AppState.watchlist
                        (app (exec (useAppStore.removeFromWatchlist movieId) w))).
Proof.
  intros Hnd. simpl.
  eapply sublist_NoDup; [exact Hnd|]. apply fmap_sublist, sublist_filter.
Qed.

(** C8. Adding a movie twice in a row: the second call leaves the
    watchlist as the first call left it, with exactly one entry of that
    movie id, and answers with the "already present" notification, which
    is not the "added" notification a first add of a new movie gives. *)
Theorem addToWatchlist_idempotent (movie : Movie.t) (w : World) :
  NoDup (Movie.id <$> AppState.watchlist (app w)) →
  let w1 := exec (useAppStore.addToWatchlist movie) w in
  let w2 := exec (useAppStore.addToWatchlist movie) w1 in
  let already := toast "Ce film est déjà dans votre liste à regarder" in
  let added := toast_success "Film ajouté à votre liste à regarder!" in
  AppState.watchlist (app w2) = AppState.watchlist (app w1)
  ∧ length (filter (λ m, Movie.id m = Movie.id movie)
              (AppState.watchlist (app w2))) = 1%nat
  ∧ toasts w2 = toasts w1 ++ [already]
  ∧ already ≠ added
  ∧ (useAppStore.isInWatchlist (Movie.id movie) w = false →
     AppState.watchlist (app w1) = AppState.watchlist (app w) ++ [movie]
     ∧ toasts w1 = toasts w ++ [added]).
Proof.
  intros Hnd w1 w2 already added.
  assert (Hin1 : useAppStore.isInWatchlist (Movie.id movie) w1 = true).
  { pose proof (addToWatchlist_state movie w) as Hstate. simpl in Hstate.
    fold w1 in Hstate. unfold useAppStore.isInWatchlist in *.
    apply existsb_movie_id.
    destruct (existsb _ (AppState.watchlist (app w))) eqn:Hin;
      destruct Hstate as [-> _].
    - by apply existsb_movie_id.
    - rewrite fmap_app, elem_of_app. right. apply list_elem_of_here. }
  pose proof (addToWatchlist_state movie w1) as Hstate2. simpl in Hstate2.
  fold w2 in Hstate2. rewrite Hin1 in Hstate2. destruct Hstate2 as [Hwl Htoasts].
  split; [done|]. split.
  { rewrite Hwl. apply filter_key_once.
    - by apply addToWatchlist_NoDup.
    - by apply existsb_movie_id. }
  split; [done|]. split; [done|].
  intros Hnew. pose proof (addToWatchlist_state movie w) as Hstate.
  simpl in Hstate. by rewrite Hnew in Hstate.
Qed.

End Watchlist.

Lemma addToWatchlist_idempotent_witness :
  let w := example_world (example_browser ∅ []) in
  let w1 := exec (useAppStore.addToWatchlist (H:=example_json) movie42) w in
  let w2 := exec (useAppStore.addToWatchlist (H:=example_json) movie42) w1 in
  NoDup (Movie.id <$> AppState.watchlist (app w))
  ∧ AppState.watchlist (app w2) = AppState.watchlist (app w1)
  ∧ length (filter (λ m, Movie.id m = 42) (AppState.watchlist (app w2))) = 1%nat.
Proof.
  intros w w1 w2.
  assert (Hnd : NoDup (Movie.id <$> AppState.watchlist (app w))) by constructor.
  split; [exact Hnd|].
  pose proof (addToWatchlist_idempotent (H:=example_json) movie42 w Hnd) as Hidem.
  simpl in Hidem. destruct Hidem as (Hsame & Hone & _).
  split; [exact Hsame | exact Hone].
Defined.

(** ** The gateway and the persisted session record *)

Lemma foreign_auth_storage : foreign_key "auth-storage".
Proof. by repeat split. Qed.

Lemma storage_lookup_with_storage (key : string) f (b : Browser) :
  (∀ ls : gmap string string, f ls !! key = ls !! key) →
  storage_lookup key (with_storage f b) = storage_lookup key b.
Proof.
  intros Hf. unfold storage_lookup, with_storage.
  destruct (window b) eqn:Hwin; simpl; [apply Hf | by rewrite Hwin].
Qed.

Lemma clearTokens_foreign (key : string) (b : Browser) :
  foreign_key key →
  storage_lookup key (ApiService.clearTokens b) = storage_lookup key b.
Proof.
  intros (Ha & Hr & Hu). apply storage_lookup_with_storage. intros ls.
  by rewrite !lookup_delete_ne.
Qed.

Lemma setTokens_foreign (key : string) (tokens : AuthTokens.t) (b : Browser) :
  foreign_key key →
  storage_lookup key (ApiService.setTokens tokens b) = storage_lookup key b.
Proof.
  intros (Ha & Hr & Hu). apply storage_lookup_with_storage. intros ls.
  by rewrite !lookup_insert_ne.
Qed.

Lemma clearTokens_cleared (b : Browser) :
  ApiService.getToken (ApiService.clearTokens b) = None
  ∧ ApiService.getRefreshToken (ApiService.clearTokens b) = None
  ∧ storage_lookup "user" (ApiService.clearTokens b) = None.
Proof.
  unfold ApiService.getToken, ApiService.getRefreshToken, ApiService.clearTokens.
  unfold storage_lookup, with_storage.
  destruct (window b) eqn:Hwin; [simpl|by rewrite Hwin].
  rewrite lookup_delete_eq.
  rewrite !(lookup_delete_ne _ "user"), lookup_delete_eq by done.
  by rewrite (lookup_delete_ne _ "refresh_token"), lookup_delete_eq.
Qed.

(** No gateway call writes a key other than the gateway's three. *)
Lemma api_keeps_key (key : string) (config : Config) :
  foreign_key key → frames (keeps_key key) (ApiService.api config).
Proof.
  intros Hkey. apply frames_api; try apply _.
  - intros c b. unfold keeps_key, storage_lookup, dispatch.
    by destruct (net b) as [|[d|st d|] rest].
  - intros t b. by apply setTokens_foreign.
  - intros b. by apply clearTokens_foreign.
  - intros h b. unfold keeps_key, storage_lookup, assign_href.
    destruct (window b) eqn:Hwin; simpl; [done | by rewrite Hwin].
Qed.

(** The forced logout: a request refused with 401 whose refresh fails. *)
Lemma api_refresh_failed (config : Config) (b b2 : Browser) (d : ErrorData)
    (rest : list Reply) (e : JsError) (win2 : Window) :
  _retry config = false →
  net b = Failure 401 d :: rest →
  let first := ApiService.attach_token config b in
  let b1 := mkBrowser (window b) rest (sent b ++ [first]) in
  ApiService.refreshToken b1 = (Rejected e, b2) →
  window b2 = Some win2 →
  ApiService.api config b
  = (Rejected e,
     mkBrowser
       (Some (mkWindow
          (delete "user"
             (delete "refresh_token" (delete "access_token" (localStorage win2))))
          "/login"))
       (net b2) (sent b2)).
Proof.
  intros Hretry Hnet first b1 Hrefresh Hwin.
  rewrite (api_unauthorized config b d rest Hretry Hnet).
  fold first b1. unfold bind at 1 2, try_catch. unfold bind at 1.
  rewrite Hrefresh. unfold bind, modify, assign_href, throw.
  unfold ApiService.logout, ApiService.clearTokens, with_storage.
  by rewrite Hwin.
Qed.

Section PersistedSession.
Context `{JSON}.

(** C10. The session lives in two places that the gateway does not keep
    in step.  The [persist] layer writes user, tokens and
    [isAuthenticated] under ["auth-storage"]; what the gateway reads does
    not depend on that record; [clearTokens] removes the gateway's three
    keys and leaves the record as it is; and no gateway call, the forced
    logout included, changes the record or the store's session. *)
Theorem auth_storage_outlives_forced_logout (w : World) (config : Config) :
  let w' := exec (apiService (ApiService.api config)) w in
  (∀ f w0, is_Some (window (browser w0)) →
     storage_lookup "auth-storage" (browser (exec (useAuthStore.set f) w0))
     = Some (persist_auth (AuthState.user (f (auth w0)))
               (AuthState.tokens (f (auth w0)))
               (AuthState.isAuthenticated (f (auth w0)))))
  ∧ (∀ record b,
       ApiService.getToken (persist "auth-storage" record b)
       = ApiService.getToken b
       ∧ ApiService.getRefreshToken (persist "auth-storage" record b)
         = ApiService.getRefreshToken b)
  ∧ (∀ b,
       storage_lookup "auth-storage" (ApiService.clearTokens b)
       = storage_lookup "auth-storage" b
       ∧ ApiService.getToken (ApiService.clearTokens b) = None
       ∧ ApiService.getRefreshToken (ApiService.clearTokens b) = None
       ∧ storage_lookup "user" (ApiService.clearTokens b) = None)
  ∧ storage_lookup "auth-storage" (browser w')
    = storage_lookup "auth-storage" (browser w)
  ∧ auth w' = auth w.
Proof.
  intros w'. repeat split.
  - intros f w0 [win Hwin]. unfold exec, useAuthStore.set, modify. simpl.
    unfold persist, storage_lookup, with_storage. rewrite Hwin. simpl.
    by rewrite lookup_insert_eq.
  - apply storage_lookup_with_storage. intros ls. by rewrite lookup_insert_ne.
  - apply storage_lookup_with_storage. intros ls. by rewrite lookup_insert_ne.
  - apply clearTokens_foreign, foreign_auth_storage.
  - apply clearTokens_cleared.
  - apply clearTokens_cleared.
  - apply clearTokens_cleared.
  - pose proof (api_keeps_key "auth-storage" config foreign_auth_storage
                  (browser w)) as Hkey.
    unfold w', exec, apiService.
    by destruct (ApiService.api config (browser w)).
  - unfold w', exec, apiService.
    by destruct (ApiService.api config (browser w)).
Qed.

End PersistedSession.

Lemma auth_storage_outlives_forced_logout_witness :
  let w := signed_in_world session_expired in
  let w' := exec (apiService (ApiService.api (ApiService.get "/favorites/"))) w in
  ApiService.getToken (browser w') = None
  ∧ ApiService.getRefreshToken (browser w') = None
  ∧ location_href <$> window (browser w') = Some "/login"
  ∧ storage_lookup "auth-storage" (browser w')
    = Some (persist_auth (JSON:=example_json)
              (Some alice) (Some old_tokens) true)
  ∧ AuthState.isAuthenticated (auth w') = true.
Proof.
  intros w w'.
  pose proof (auth_storage_outlives_forced_logout (H:=example_json)
                w (ApiService.get "/favorites/")) as Hthm.
  simpl in Hthm. destruct Hthm as (_ & _ & _ & Hrecord & Hauth).
  split; [vm_compute; reflexivity|]. split; [vm_compute; reflexivity|].
  split; [vm_compute; reflexivity|]. split.
  - etrans; [exact Hrecord|]. vm_compute. reflexivity.
  - unfold w'. rewrite Hauth. reflexivity.
Defined.

(** C1. A request refused with 401 whose refresh fails, in a browser: the
    caller gets the refresh error, the gateway's three storage keys are
    gone and the page is sent to [/login]; the session store is left as
    it was, so a session that was authenticated is authenticated still
    and still holds its tokens. *)
Theorem forced_logout_keeps_session_store (w : World) (config : Config)
    (d : ErrorData) (rest : list Reply) (e : JsError) (b2 : Browser) :
  is_Some (window (browser w)) →
  _retry config = false →
  net (browser w) = Failure 401 d :: rest →
  let first := ApiService.attach_token config (browser w) in
  let b1 :=
    mkBrowser (window (browser w)) rest (sent (browser w) ++ [first]) in
  ApiService.refreshToken b1 = (Rejected e, b2) →
  let result := apiService (ApiService.api config) w in
  result.1 = Rejected e
  ∧ ApiService.getToken (browser result.2) = None
  ∧ ApiService.getRefreshToken (browser result.2) = None
  ∧ storage_lookup "user" (browser result.2) = None
  ∧ location_href <$> window (browser result.2) = Some "/login"
  ∧ auth result.2 = auth w.
Proof.
  intros Hwin Hretry Hnet first b1 Hrefresh result.
  destruct (refreshToken_keeps_window b1 Hwin) as [win2 Hwin2].
  rewrite Hrefresh in Hwin2. simpl in Hwin2.
  pose proof (api_refresh_failed config (browser w) b2 d rest e win2
                Hretry Hnet Hrefresh Hwin2) as Hapi.
  unfold result, apiService. rewrite Hapi. simpl.
  unfold ApiService.getToken, ApiService.getRefreshToken, storage_lookup. simpl.
  rewrite lookup_delete_eq.
  rewrite !(lookup_delete_ne _ "user"), lookup_delete_eq by done.
  by rewrite (lookup_delete_ne _ "refresh_token"), lookup_delete_eq.
Qed.

Lemma forced_logout_keeps_session_store_witness :
  let w := signed_in_world session_expired in
  let result := apiService (ApiService.api (ApiService.get "/favorites/")) w in
  AuthState.isAuthenticated (auth w) = true
  ∧ result.1 = Rejected (ApiErr (ApiError.mk "Token is invalid or expired" 400))
  ∧ ApiService.getToken (browser result.2) = None
  ∧ ApiService.getRefreshToken (browser result.2) = None
  ∧ location_href <$> window (browser result.2) = Some "/login"
  ∧ AuthState.isAuthenticated (auth result.2) = true
  ∧ AuthState.tokens (auth result.2) = Some old_tokens.
Proof.
  intros w result. split; [reflexivity|].
  destruct (forced_logout_keeps_session_store w (ApiService.get "/favorites/")
              no_error_data
              [Failure 400 (mkErrorData None (Some "Token is invalid or expired"))]
              (ApiErr (ApiError.mk "Token is invalid or expired" 400))
              (mkBrowser (window (browser w)) []
                 [ApiService.bearer (ApiService.get "/favorites/") "access-0";
                  ApiService.bearer
                    (ApiService.post "/token/refresh/" (RefreshBody "refresh-0"))
                    "access-0"]))
    as (Hres & Htoken & Hrefresh & _ & Hhref & Hauth);
    [by eexists | reflexivity | reflexivity | vm_compute; reflexivity |].
  split; [exact Hres|]. split; [exact Htoken|]. split; [exact Hrefresh|].
  split; [exact Hhref|]. fold result in Hauth. rewrite Hauth. by split.
Defined.

(** ** Favorites *)

Section Favorites.
Context `{JSON}.

Lemma addToFavorites_outcome (movie : Movie.t) (w : World) :
  useAppStore.addToFavorites movie w
  = match ApiService.addToFavorites movie (browser w) with
    | (Resolved favorite, b) =>
        let state :=
          useAppStore.set_favorites (AppState.favorites (app w) ++ [favorite])
            (app w) in
        (Resolved tt,
         mkWorld (persist "app-storage" (useAppStore.partialize state) b)
           (toasts w ++ [toast_success "Film ajouté aux favoris!"])
           (auth w) state)
    | (Rejected error, b) =>
        (Rejected error,
         mkWorld b
           (toasts w ++
              [toast_error (or_else (error_field error)
                              "Erreur lors de l'ajout aux favoris")])
           (auth w) (app w))
    | (Pending, b) => (Pending, mkWorld b (toasts w) (auth w) (app w))
    end.
Proof.
  unfold useAppStore.addToFavorites, try_catch, bind, apiService.
  by destruct (ApiService.addToFavorites movie (browser w)) as [[f|e|] b].
Qed.

Lemma removeFromFavorites_outcome (movieId : Z) (w : World) :
  useAppStore.removeFromFavorites movieId w
  = match find (λ f, FavoriteMovie.movie_id f =? movieId)
            (AppState.favorites (app w)) with
    | None => (Resolved tt, w)
    | Some favorite =>
        match ApiService.removeFromFavorites (FavoriteMovie.id favorite)
                (browser w) with
        | (Resolved _, b) =>
            let state :=
              useAppStore.set_favorites
                (filter (λ f, FavoriteMovie.movie_id f ≠ movieId)
                   (AppState.favorites (app w)))
                (app w) in
            (Resolved tt,
             mkWorld (persist "app-storage" (useAppStore.partialize state) b)
               (toasts w ++ [toast_success "Film retiré des favoris!"])
               (auth w) state)
        | (Rejected error, b) =>
            (Rejected error,
             mkWorld b
               (toasts w ++
                  [toast_error (or_else (error_field error)
                                  "Erreur lors de la suppression des favoris")])
               (auth w) (app w))
        | (Pending, b) => (Pending, mkWorld b (toasts w) (auth w) (app w))
        end
    end.
Proof.
  unfold useAppStore.removeFromFavorites, try_catch, bind, gets, apiService.
  simpl. destruct (find _ _) as [favorite|]; [|by destruct w].
  by destruct (ApiService.removeFromFavorites _ (browser w)) as [[[]|e|] b].
Qed.




End Favorites.

Section FavoritesClaim.
Context `{JSON}.


End FavoritesClaim.


(** ** Failed login and registration *)

Lemma persist_other (name key value : string) (b : Browser) :
  key ≠ name →
  storage_lookup key (persist name value b) = storage_lookup key b.
Proof.
  intros Hne. apply storage_lookup_with_storage. intros ls.
  by rewrite lookup_insert_ne.
Qed.

(** A request refused outright is dispatched once and fails as it is. *)
Lemma api_refused (config : Config) (b : Browser) (reply : Reply)
    (rest : list Reply) :
  net b = reply :: rest → refused_outright reply →
  ∃ response,
    ApiService.api config b
    = (Rejected (AxiosError (ApiService.attach_token config b) response),
       mkBrowser (window b) rest (sent b ++ [ApiService.attach_token config b])).
Proof.
  intros Hnet Hreply. rewrite api_unfold.
  unfold bind, ApiService.request_interceptor, gets, try_catch, dispatch.
  rewrite Hnet. destruct reply as [d|status d|]; [done| |by eexists].
  simpl in *. exists (Some (status, d)).
  unfold ApiService.response_rejected.
  by rewrite (proj2 (Z.eqb_neq status 401) Hreply).
Qed.

Section FailedLogin.
Context `{JSON}.

Lemma login_outcome (credentials : LoginCredentials.t) (w : World) :
  let loading := useAuthStore.set_isLoading true (auth w) in
  let b0 := persist "auth-storage" (useAuthStore.partialize loading) (browser w) in
  useAuthStore.login credentials w
  = match ApiService.login credentials b0 with
    | (Resolved session, b) =>
        let state := AuthState.mk (Some session.1) (Some session.2) true false in
        (Resolved tt,
         mkWorld (persist "auth-storage" (useAuthStore.partialize state) b)
           (toasts w ++
              [toast_success ("Bienvenue " +:+ User.username session.1 +:+ "!")])
           state (app w))
    | (Rejected error, b) =>
        let state := useAuthStore.set_isLoading false loading in
        (Rejected error,
         mkWorld (persist "auth-storage" (useAuthStore.partialize state) b)
           (toasts w ++
              [toast_error (or_else (error_field error) "Erreur de connexion")])
           state (app w))
    | (Pending, b) => (Pending, mkWorld b (toasts w) loading (app w))
    end.
Proof.
  intros loading b0.
  unfold useAuthStore.login, try_catch, bind, apiService, useAuthStore.set, modify.
  simpl. fold loading. fold b0.
  by destruct (ApiService.login credentials b0) as [[session|e|] b].
Qed.

Lemma register_outcome (credentials : RegisterCredentials.t) (w : World) :
  let loading := useAuthStore.set_isLoading true (auth w) in
  let b0 := persist "auth-storage" (useAuthStore.partialize loading) (browser w) in
  useAuthStore.register credentials w
  = match ApiService.register credentials b0 with
    | (Resolved _, b) =>
        let state := useAuthStore.set_isLoading false loading in
        (Resolved tt,
         mkWorld (persist "auth-storage" (useAuthStore.partialize state) b)
           (toasts w ++
              [toast_success
                 "Compte créé avec succès! Vous pouvez maintenant vous connecter."])
           state (app w))
    | (Rejected error, b) =>
        let state := useAuthStore.set_isLoading false loading in
        (Rejected error,
         mkWorld (persist "auth-storage" (useAuthStore.partialize state) b)
           (toasts w ++
              [toast_error (or_else (error_field error)
                              "Erreur lors de la création du compte")])
           state (app w))
    | (Pending, b) => (Pending, mkWorld b (toasts w) loading (app w))
    end.
Proof.
  intros loading b0.
  unfold useAuthStore.register, try_catch, bind, apiService, useAuthStore.set,
    modify.
  simpl. fold loading. fold b0.
  by destruct (ApiService.register credentials b0) as [[user|e|] b].
Qed.

Lemma login_refused (credentials : LoginCredentials.t) (b : Browser)
    (reply : Reply) (rest : list Reply) :
  net b = reply :: rest → refused_outright reply →
  ∃ e sent', ApiService.login credentials b
             = (Rejected (ApiErr e), mkBrowser (window b) rest sent').
Proof.
  intros Hnet Hreply.
  destruct (api_refused (ApiService.post "/token/" (LoginBody credentials))
              b reply rest Hnet Hreply) as [response Hapi].
  unfold ApiService.login, try_catch, bind. rewrite Hapi. by eauto.
Qed.

Lemma register_refused (credentials : RegisterCredentials.t) (b : Browser)
    (reply : Reply) (rest : list Reply) :
  net b = reply :: rest → refused_outright reply →
  ∃ e sent', ApiService.register credentials b
             = (Rejected (ApiErr e), mkBrowser (window b) rest sent').
Proof.
  intros Hnet Hreply.
  destruct (api_refused (ApiService.post "/register/" (RegisterBody credentials))
              b reply rest Hnet Hreply) as [response Hapi].
  unfold ApiService.register, try_catch, bind. rewrite Hapi. by eauto.
Qed.

End FailedLogin.

Section FailedLoginClaim.
Context `{JSON}.

(** C4, as the code has it.  A login or a registration that fails leaves
    user, tokens and [isAuthenticated] of the store as they were, ends
    with the loading flag cleared, shows an error notification, and
    rejects with the very error the gateway threw.  The stored token keys
    are as before when the first request is refused outright (no
    response, or an error status other than 401); nothing is promised
    for them otherwise. *)
Theorem failed_login_keeps_session (credentials : LoginCredentials.t)
    (registration : RegisterCredentials.t) (w : World) :
  let login := useAuthStore.login credentials w in
  let register := useAuthStore.register registration w in
  let b0 :=
    persist "auth-storage"
      (useAuthStore.partialize (useAuthStore.set_isLoading true (auth w)))
      (browser w) in
  (∀ error, login.1 = Rejected error →
     same_session (auth w) (auth login.2)
     ∧ AuthState.isLoading (auth login.2) = false
     ∧ toasts login.2
       = toasts w ++ [toast_error (or_else (error_field error)
                                     "Erreur de connexion")])
  ∧ (∀ error, register.1 = Rejected error →
     same_session (auth w) (auth register.2)
     ∧ AuthState.isLoading (auth register.2) = false
     ∧ toasts register.2
       = toasts w ++ [toast_error (or_else (error_field error)
                                     "Erreur lors de la création du compte")])
  ∧ (∀ error b, ApiService.login credentials b0 = (Rejected error, b) →
     login.1 = Rejected error)
  ∧ (∀ error b, ApiService.register registration b0 = (Rejected error, b) →
     register.1 = Rejected error)
  ∧ (∀ reply rest, net (browser w) = reply :: rest → refused_outright reply →
     (∃ e, login.1 = Rejected (ApiErr e))
     ∧ (∃ e, register.1 = Rejected (ApiErr e))
     ∧ ∀ key, key ≠ "auth-storage" →
         storage_lookup key (browser login.2) = storage_lookup key (browser w)
         ∧ storage_lookup key (browser register.2)
           = storage_lookup key (browser w)).
Proof.
  intros login register b0. unfold login, register.
  rewrite login_outcome, register_outcome. fold b0.
  split; [|split; [|split; [|split]]].
  - intros error.
    destruct (ApiService.login credentials b0) as [[session|e|] b];
      simpl; [done| |done].
    intros [= ->]. by repeat split.
  - intros error.
    destruct (ApiService.register registration b0) as [[user|e|] b];
      simpl; [done| |done].
    intros [= ->]. by repeat split.
  - intros error b Hlogin. by rewrite Hlogin.
  - intros error b Hregister. by rewrite Hregister.
  - intros reply rest Hnet Hreply.
    assert (Hnet0 : net b0 = reply :: rest)
      by (unfold b0, persist; by rewrite net_with_storage).
    destruct (login_refused credentials b0 reply rest Hnet0 Hreply)
      as (e1 & sent1 & ->).
    destruct (register_refused registration b0 reply rest Hnet0 Hreply)
      as (e2 & sent2 & ->).
    simpl. split; [by eauto|]. split; [by eauto|].
    intros key Hkey. rewrite !persist_other by done.
    unfold storage_lookup at 1 3. simpl. fold (storage_lookup key b0).
    unfold b0. by rewrite persist_other.
Qed.

End FailedLoginClaim.

Lemma failed_login_keeps_session_witness :
  let w := example_world (example_browser signed_in_storage
             [Failure 400 (mkErrorData (Some "Invalid credentials") None)]) in
  let login := useAuthStore.login (H:=example_json) alice_credentials w in
  login.1 = Rejected (ApiErr (ApiError.mk "Invalid credentials" 400))
  ∧ same_session (auth w) (auth login.2)
  ∧ AuthState.isLoading (auth login.2) = false
  ∧ ApiService.getToken (browser login.2) = ApiService.getToken (browser w).
Proof.
  intros w login.
  pose proof (failed_login_keeps_session (H:=example_json) alice_credentials
                alice_registration w) as Hthm.
  simpl in Hthm. destruct Hthm as (Hfailed & _ & _ & _ & Hrefused).
  assert (Hlogin : login.1 = Rejected (ApiErr (ApiError.mk "Invalid credentials" 400)))
    by (vm_compute; reflexivity).
  split; [exact Hlogin|].
  destruct (Hfailed _ Hlogin) as (Hsession & Hloading & _).
  split; [exact Hsession|]. split; [exact Hloading|].
  destruct (Hrefused _ [] eq_refl) as (_ & _ & Hkeys); [simpl; lia|].
  exact (proj1 (Hkeys "access_token" ltac:(discriminate))).
Defined.

(** C4 as stated fails: the token exchange succeeds, the profile request
    gets no response, the login fails, and the new tokens stay in
    storage. *)
Lemma failed_login_leaves_new_tokens :
  let w := example_world (example_browser ∅ profile_unreachable) in
  let login := useAuthStore.login (H:=example_json) alice_credentials w in
  login.1 = Rejected (ApiErr (ApiError.mk
              "Network error. Please check your connection." 0))
  ∧ ApiService.getToken (browser w) = None
  ∧ ApiService.getRefreshToken (browser w) = None
  ∧ ApiService.getToken (browser login.2) = Some "access-1"
  ∧ ApiService.getRefreshToken (browser login.2) = Some "refresh-1".
Proof. vm_compute. repeat split. Qed.

(** ** Start-up reconciliation and the session invariant *)

Section Session.
Context `{JSON}.


Lemma refreshToken_outcome (w : World) :
  useAuthStore.refreshToken w
  = match ApiService.refreshToken (browser w) with
    | (Resolved tokens, b) =>
        let state :=
          AuthState.mk (AuthState.user (auth w)) (Some tokens)
            (AuthState.isAuthenticated (auth w)) (AuthState.isLoading (auth w)) in
        (Resolved tt,
         mkWorld (persist "auth-storage" (useAuthStore.partialize state) b)
           (toasts w) state (app w))
    | (Rejected _, b) =>
        useAuthStore.logout (mkWorld b (toasts w) (auth w) (app w))
    | (Pending, b) => (Pending, mkWorld b (toasts w) (auth w) (app w))
    end.
Proof.
  unfold useAuthStore.refreshToken, try_catch, bind, apiService.
  by destruct (ApiService.refreshToken (browser w)) as [[tokens|e|] b].
Qed.

Lemma checkAuth_outcome (w : World) :
  useAuthStore.checkAuth w
  = match storage_lookup "access_token" (browser w),
          storage_lookup "user" (browser w) with
    | Some access, Some str =>
        if truthy (Some access) && truthy (Some str) then
          match parse_user str with
          | Some user =>
              let refresh :=
                or_else (storage_lookup "refresh_token" (browser w)) EmptyString in
              let state :=
                AuthState.mk user (Some (AuthTokens.mk access refresh))
                  true (AuthState.isLoading (auth w)) in
              (Resolved tt,
               mkWorld
                 (persist "auth-storage" (useAuthStore.partialize state)
                    (browser w))
                 (toasts w) state (app w))
          | None => useAuthStore.logout w
          end
        else (Resolved tt, w)
    | _, _ => (Resolved tt, w)
    end.
Proof.
  unfold useAuthStore.checkAuth, bind, gets.
  destruct (storage_lookup "access_token" (browser w)) as [access|];
    [|by destruct (storage_lookup "user" (browser w))].
  destruct (storage_lookup "user" (browser w)) as [str|]; [|done].
  destruct (truthy (Some access) && truthy (Some str)); [|done].
  unfold try_catch, bind, gets. by destruct (parse_user str).
Qed.


(** The store's own refresh, when it fails, clears the session. *)
Lemma refreshToken_rejected_clears_session (w : World) (e : JsError)
    (b : Browser) :
  ApiService.refreshToken (browser w) = (Rejected e, b) →
  let result := useAuthStore.refreshToken w in
  result.1 = Resolved tt
  ∧ AuthState.user (auth result.2) = None
  ∧ AuthState.tokens (auth result.2) = None
  ∧ AuthState.isAuthenticated (auth result.2) = false.
Proof.
  intros Hrefresh result. unfold result.
  rewrite refreshToken_outcome, Hrefresh. done.
Qed.

Lemma initial_session_invariant : session_invariant useAuthStore.initial.
Proof. split; [by intros [? [=]] | done]. Qed.

(** Every operation of the auth store keeps the invariant. *)
Lemma auth_op_invariant (op : AuthOp) (w : World) :
  session_invariant (auth w) → session_invariant (auth (exec (auth_op op) w)).
Proof.
  intros [Huser Htokens]. unfold exec.
  destruct op as [credentials|credentials| | |]; simpl.
  - rewrite login_outcome.
    destruct (ApiService.login _ _) as [[session|e|] b]; simpl;
      [split; by eauto | by split..].
  - rewrite register_outcome.
    by destruct (ApiService.register _ _) as [[user|e|] b].
  - split; [by intros [? [=]] | done].
  - rewrite refreshToken_outcome.
    destruct (ApiService.refreshToken _) as [[tokens|e|] b]; simpl.
    + split; [done | by eauto].
    + split; [by intros [? [=]] | done].
    + by split.
  - rewrite checkAuth_outcome.
    destruct (storage_lookup "access_token" _) as [access|]; [|by split].
    destruct (storage_lookup "user" _) as [str|]; [|by split].
    destruct (truthy _ && truthy _); [|by split].
    destruct (parse_user str) as [user|]; simpl.
    + split; [done | by eauto].
    + split; [by intros [? [=]] | done].
Qed.

Lemma auth_ops_invariant (ops : list AuthOp) (w : World) :
  session_invariant (auth w) → session_invariant (auth (auth_ops ops w)).
Proof.
  revert w. induction ops as [|op ops IH]; intros w Hw; [done|].
  apply IH. by apply auth_op_invariant.
Qed.

(** C3, as the code has it.  The initial session satisfies the
    invariant: a user is there only if [isAuthenticated] is true, and
    [isAuthenticated] is true only if the token pair is there.  From
    every session that satisfies it, whatever storage holds and whatever
    the server replies, every run of login, register, logout,
    refreshToken and checkAuth ends in a session that satisfies it, and
    each operation leads from such a session to such a session. *)
Theorem session_invariant_reachable (ops : list AuthOp) (w : World) :
  session_invariant (auth w) →
  session_invariant useAuthStore.initial
  ∧ session_invariant (auth (auth_ops ops w))
  ∧ ∀ op, session_invariant (auth (exec (auth_op op) (auth_ops ops w))).
Proof.
  intros Hw. split; [apply initial_session_invariant|].
  assert (Hreach : session_invariant (auth (auth_ops ops w)))
    by by apply auth_ops_invariant.
  split; [done|]. intros op. by apply auth_op_invariant.
Qed.

End Session.


Lemma session_invariant_reachable_witness :
  let w := example_world (example_browser signed_in_storage
             [Success example_data; Success example_data]) in
  let ops := [CheckAuth; Login alice_credentials; RefreshToken; Logout] in
  auth w = useAuthStore.initial
  ∧ session_invariant (auth w)
  ∧ session_invariant (auth (auth_ops (H:=example_json) ops w)).
Proof.
  intros w ops. split; [reflexivity|].
  assert (Hw : session_invariant (auth w))
    by exact initial_session_invariant.
  split; [exact Hw|].
  exact (proj1 (proj2 (session_invariant_reachable (H:=example_json) ops w Hw))).
Defined.

(** C3 as stated fails, twice over.  Storage holds an access token and
    a user but no refresh token: [checkAuth] restores an authenticated
    session whose refresh token is the empty string.  Storage holds the
    tokens and the user document [null]: [JSON.parse] returns [null]
    without throwing and [checkAuth] restores an authenticated session
    with no user. *)
Lemma checkAuth_restores_incomplete_session :
  let w := example_world (example_browser storage_without_refresh []) in
  let s := auth (auth_ops (H:=example_json) [CheckAuth] w) in
  let w' := example_world (example_browser storage_with_null_user []) in
  let s' := auth (auth_ops (H:=example_json) [CheckAuth] w') in
  auth w = useAuthStore.initial
  ∧ AuthState.isAuthenticated s = true
  ∧ AuthTokens.refresh <$> AuthState.tokens s = Some EmptyString
  ∧ ¬ session_invariant_as_specified s
  ∧ auth w' = useAuthStore.initial
  ∧ AuthState.isAuthenticated s' = true
  ∧ AuthState.user s' = None
  ∧ AuthState.tokens s' = Some old_tokens
  ∧ ¬ session_invariant_as_specified s'.
Proof.
  intros w s w' s'. split; [reflexivity|]. split; [reflexivity|].
  split; [reflexivity|]. split.
  { intros Hinv. destruct (proj1 Hinv eq_refl) as (_ & _ & Hrefresh).
    discriminate Hrefresh. }
  split; [reflexivity|]. split; [reflexivity|]. split; [reflexivity|].
  split; [reflexivity|].
  intros Hinv. destruct (proj1 Hinv eq_refl) as ([user Huser] & _).
  discriminate Huser.
Qed.


(** * Further properties of the gateway *)

(** ** Error normalisation *)

Lemma or_else_nonempty (a : option string) (b : string) :
  b ≠ EmptyString → or_else a b ≠ EmptyString.
Proof.
  intros Hb. unfold or_else. destruct a as [s|]; [|done].
  destruct s; simpl; done.
Qed.

Lemma handleError_has_message (error : JsError) :
  ApiError.error (ApiService.handleError error) ≠ EmptyString.
Proof.
  destruct error as [config [[status d]|]|message|e];
    cbn [ApiService.handleError ApiError.error]; try done.
  - by apply or_else_nonempty, or_else_nonempty.
  - by apply or_else_nonempty.
Qed.

(** X1. Whatever is thrown, the normalised error has a message to show,
    and its status is the response's status when there is a response and
    0 otherwise. *)
Theorem handleError_message_and_status (error : JsError) :
  let normalised := ApiService.handleError error in
  ApiError.error normalised ≠ EmptyString
  ∧ ApiError.status normalised
    = match error with
      | AxiosError _ (Some (status, _)) => status
      | _ => 0
      end.
Proof.
  split; [apply handleError_has_message|].
  by destruct error as [config [[status d]|]|message|e].
Qed.

(** The [catch] every endpoint ends with lets nothing through but a
    normalised error. *)
Lemma normalising_catch {A} (body : Async Browser A) (b b' : Browser)
    (error : JsError) :
  try_catch body (λ error, throw (ApiErr (ApiService.handleError error))) b
  = (Rejected error, b') →
  ∃ cause, error = ApiErr (ApiService.handleError cause).
Proof.
  unfold try_catch, throw.
  destruct (body b) as [[a|e|] b1]; intros [= <- <-]; eauto.
Qed.

Section Normalised.
Context `{JSON} `{Readings}.

(** X2. No endpoint of the gateway lets a raw transport error through:
    whatever it rejects with is a normalised error, with a message to
    show. *)
Theorem endpoints_reject_normalised (error : JsError) :
  (∃ credentials, rejects_with (ApiService.login credentials) error)
  ∨ (∃ credentials, rejects_with (ApiService.register credentials) error)
  ∨ rejects_with ApiService.refreshToken error
  ∨ rejects_with ApiService.getFavorites error
  ∨ (∃ movie, rejects_with (ApiService.addToFavorites movie) error)
  ∨ (∃ favoriteId, rejects_with (ApiService.removeFromFavorites favoriteId) error)
  ∨ (∃ movieId, rejects_with (ApiCatalogue.getMovieDetails movieId) error)
  ∨ (∃ timeWindow, rejects_with (ApiCatalogue.getTrendingMovies timeWindow) error)
  ∨ (∃ filters, rejects_with (ApiCatalogue.searchMovies filters) error)
  ∨ (∃ movieId limit,
       rejects_with (ApiCatalogue.getMovieRecommendations movieId limit) error)
  ∨ (∃ movie, rejects_with (ApiCatalogue.addToWatchlist movie) error)
  ∨ (∃ movieId, rejects_with (ApiCatalogue.removeFromWatchlist movieId) error)
  ∨ rejects_with ApiCatalogue.getWatchlist error →
  ∃ e, error = ApiErr e ∧ ApiError.error e ≠ EmptyString.
Proof.
  assert (Hcatch : ∀ A (body : Async Browser A) b b',
    try_catch body (λ error, throw (ApiErr (ApiService.handleError error))) b
    = (Rejected error, b') →
    ∃ e, error = ApiErr e ∧ ApiError.error e ≠ EmptyString).
  { intros A body b b' Hrun.
    destruct (normalising_catch body b b' error Hrun) as [cause ->].
    eexists. split; [done|]. apply handleError_has_message. }
  intros Hrejects.
  unfold rejects_with in Hrejects.
  repeat match type of Hrejects with
         | _ ∨ _ => destruct Hrejects as [Hrejects | Hrejects]
         | ∃ _, _ => destruct Hrejects as [? Hrejects]
         end;
    eapply Hcatch; exact Hrejects.
Qed.

End Normalised.

Lemma endpoints_reject_normalised_witness :
  rejects_with ApiService.getFavorites
    (ApiErr (ApiError.mk "Network error. Please check your connection." 0))
  ∧ ∃ e, ApiErr (ApiError.mk "Network error. Please check your connection." 0)
         = ApiErr e
         ∧ ApiError.error e ≠ EmptyString.
Proof.
  assert (Hrejects : rejects_with ApiService.getFavorites
    (ApiErr (ApiError.mk "Network error. Please check your connection." 0))).
  { exists (example_browser ∅ [NoResponse]). eexists. vm_compute. reflexivity. }
  split; [exact Hrejects|].
  apply (endpoints_reject_normalised (H:=example_json) (H0:=example_readings)).
  do 3 right. left. exact Hrejects.
Defined.

(** ** The forced logout, seen from an endpoint *)

Lemma refreshToken_rejects_normalised (b b' : Browser) (e : JsError) :
  ApiService.refreshToken b = (Rejected e, b') →
  ∃ cause, e = ApiErr (ApiService.handleError cause).
Proof. apply normalising_catch. Qed.

(** X3. An endpoint is [try { await this.api(config); ... } catch {
    throw handleError }].  When its request is refused with 401 and the
    refresh fails, the interceptor rejects with the refresh error, which
    is normalised already; the endpoint normalises it again, so the
    caller always gets the generic error with status 0, whatever made
    the refresh fail. *)
Theorem forced_logout_error_is_generic {A} (config : Config)
    (k : Response → Async Browser A) (b b2 : Browser) (d : ErrorData)
    (rest : list Reply) (e : JsError) :
  is_Some (window b) →
  _retry config = false →
  net b = Failure 401 d :: rest →
  ApiService.refreshToken
    (mkBrowser (window b) rest (sent b ++ [ApiService.attach_token config b]))
  = (Rejected e, b2) →
  let endpoint :=
    try_catch (await response <- ApiService.api config; k response)
      (λ error, throw (ApiErr (ApiService.handleError error))) in
  (endpoint b).1
  = Rejected (ApiErr (ApiError.mk "An unexpected error occurred" 0))
  ∧ ApiService.getToken (endpoint b).2 = None
  ∧ location_href <$> window (endpoint b).2 = Some "/login".
Proof.
  intros Hwin Hretry Hnet Hrefresh endpoint.
  destruct (refreshToken_keeps_window
              (mkBrowser (window b) rest
                 (sent b ++ [ApiService.attach_token config b])) Hwin)
    as [win2 Hwin2].
  rewrite Hrefresh in Hwin2. simpl in Hwin2.
  pose proof (api_refresh_failed config b b2 d rest e win2 Hretry Hnet
                Hrefresh Hwin2) as Hapi.
  destruct (refreshToken_rejects_normalised _ _ _ Hrefresh) as [cause ->].
  unfold endpoint, try_catch, bind. rewrite Hapi. simpl.
  split; [done|]. split; [|done].
  unfold ApiService.getToken, storage_lookup. simpl.
  by rewrite !lookup_delete_ne, lookup_delete_eq by done.
Qed.

Lemma forced_logout_error_is_generic_witness :
  let b := browser (signed_in_world session_expired) in
  is_Some (window b)
  ∧ (ApiService.getFavorites b).1
    = Rejected (ApiErr (ApiError.mk "An unexpected error occurred" 0)).
Proof.
  intros b. assert (Hwin : is_Some (window b)) by (by eexists).
  split; [exact Hwin|].
  refine (proj1 (forced_logout_error_is_generic (ApiService.get "/favorites/")
            (λ response, ret (as_favorites (response_data response)))
            b _ no_error_data
            [Failure 400 (mkErrorData None (Some "Token is invalid or expired"))]
            _ Hwin eq_refl eq_refl _)).
  vm_compute. reflexivity.
Defined.

(** Without a refresh token in storage the refresh fails on the spot:
    nothing is sent and nothing changes. *)
Lemma refreshToken_without_token (b : Browser) :
  truthy (ApiService.getRefreshToken b) = false →
  ApiService.refreshToken b
  = (Rejected (ApiErr (ApiError.mk "No refresh token available" 0)), b).
Proof.
  intros Htoken.
  unfold ApiService.refreshToken, ApiService.refreshToken_via, try_catch, bind, gets.
  destruct (ApiService.getRefreshToken b) as [token|]; [|done].
  by rewrite Htoken.
Qed.

Section RefusedLogin.
Context `{JSON}.

(** X5. A login that the server refuses with 401, in a browser that holds
    no refresh token: the interceptor takes the 401 for an expired
    session, finds nothing to refresh with, and forces a logout.  One
    request is sent; the caller and the notification get the generic
    error, not the server's reason; the page is sent to [/login]. *)
Theorem login_refused_with_401 (credentials : LoginCredentials.t) (w : World)
    (d : ErrorData) (rest : list Reply) :
  is_Some (window (browser w)) →
  truthy (ApiService.getRefreshToken (browser w)) = false →
  net (browser w) = Failure 401 d :: rest →
  let result := useAuthStore.login credentials w in
  result.1 = Rejected (ApiErr (ApiError.mk "An unexpected error occurred" 0))
  ∧ toasts result.2 = toasts w ++ [toast_error "An unexpected error occurred"]
  ∧ location_href <$> window (browser result.2) = Some "/login"
  ∧ net (browser result.2) = rest
  ∧ length (sent (browser result.2)) = S (length (sent (browser w)))
  ∧ ApiService.getToken (browser result.2) = None
  ∧ same_session (auth w) (auth result.2).
Proof.
  intros [win Hwin] Htoken Hnet result. unfold result.
  rewrite login_outcome.
  set (b0 := persist "auth-storage" _ (browser w)).
  assert (Hwin0 : window b0
                  = Some (mkWindow (<["auth-storage" :=
                            useAuthStore.partialize
                              (useAuthStore.set_isLoading true (auth w))]>
                            (localStorage win)) (location_href win))).
  { unfold b0, persist, with_storage. by rewrite Hwin. }
  assert (Hnet0 : net b0 = Failure 401 d :: rest).
  { unfold b0, persist. by rewrite net_with_storage. }
  assert (Htoken0 : truthy (ApiService.getRefreshToken b0) = false).
  { unfold ApiService.getRefreshToken, b0. by rewrite persist_other. }
  set (config := ApiService.post "/token/" (LoginBody credentials)).
  set (b1 := mkBrowser (window b0) rest
               (sent b0 ++ [ApiService.attach_token config b0])).
  assert (Hrefresh : ApiService.refreshToken b1
    = (Rejected (ApiErr (ApiError.mk "No refresh token available" 0)), b1)).
  { apply refreshToken_without_token.
    unfold ApiService.getRefreshToken, storage_lookup in *. by simpl. }
  pose proof (api_refresh_failed config b0 b1 d rest _ _ eq_refl Hnet0
                Hrefresh Hwin0) as Hapi.
  unfold ApiService.login, try_catch, bind. fold config. rewrite Hapi. simpl.
  repeat split.
  - unfold persist, with_storage. simpl.
    rewrite length_app. unfold b0, persist, with_storage. rewrite Hwin. simpl.
    lia.
  - unfold ApiService.getToken, persist, storage_lookup, with_storage. simpl.
    rewrite lookup_insert_ne by done.
    by rewrite !lookup_delete_ne, lookup_delete_eq by done.
Qed.

End RefusedLogin.

Lemma login_refused_with_401_witness :
  let w := example_world (example_browser ∅
             [Failure 401 (mkErrorData None
                (Some "No active account found with the given credentials"))]) in
  let result := useAuthStore.login (H:=example_json) alice_credentials w in
  truthy (ApiService.getRefreshToken (browser w)) = false
  ∧ result.1 = Rejected (ApiErr (ApiError.mk "An unexpected error occurred" 0))
  ∧ location_href <$> window (browser result.2) = Some "/login".
Proof.
  intros w result. split; [reflexivity|].
  destruct (login_refused_with_401 (H:=example_json) alice_credentials w
              (mkErrorData None
                 (Some "No active account found with the given credentials"))
              []) as (Hres & _ & Hhref & _);
    [by eexists | reflexivity | reflexivity |].
  split; [exact Hres | exact Hhref].
Defined.

(** ** A server that answers 401 to everything *)

Lemma attach_token_same_window (config : Config) (b b' : Browser) :
  window b' = window b →
  ApiService.attach_token config b' = ApiService.attach_token config b.
Proof.
  intros Hwin.
  unfold ApiService.attach_token, ApiService.getToken, storage_lookup.
  by rewrite Hwin.
Qed.

(** X4. The [_retry] mark stops the retry of one request, not the
    refresh: the refresh request is a new request each time, so a 401 on
    it starts a refresh of its own.  Against a server that has answered
    401 [k] times, refresh included, the gateway has sent the request and
    [k] refresh requests, has settled nothing, and has forced no
    logout. *)
Theorem refresh_chain_on_401 (k : nat) (config : Config) (b : Browser)
    (d : ErrorData) (token : string) :
  _retry config = false →
  net b = replicate k (Failure 401 d) →
  ApiService.getRefreshToken b = Some token →
  token ≠ EmptyString →
  let refresh :=
    ApiService.attach_token
      (ApiService.post "/token/refresh/" (RefreshBody token)) b in
  ApiService.api config b
  = (Pending,
     mkBrowser (window b) []
       (sent b ++ ApiService.attach_token config b :: replicate k refresh)).
Proof.
  revert config b. induction k as [|k IH]; intros config b Hretry Hnet Htoken Hne.
  - simpl. rewrite api_unfold.
    unfold bind, ApiService.request_interceptor, gets, try_catch, dispatch.
    by rewrite Hnet.
  - intros refresh. simpl in Hnet.
    rewrite (api_unauthorized config b d _ Hretry Hnet).
    set (first := ApiService.attach_token config b).
    set (b1 := mkBrowser (window b) (replicate k (Failure 401 d))
                 (sent b ++ [first])).
    assert (Htoken1 : ApiService.getRefreshToken b1 = Some token) by done.
    pose proof (IH (ApiService.post "/token/refresh/" (RefreshBody token)) b1
                  eq_refl eq_refl Htoken1 Hne) as Hcall.
    simpl in Hcall.
    rewrite (attach_token_same_window _ b b1 eq_refl) in Hcall.
    fold refresh in Hcall.
    unfold bind at 1 2, try_catch. unfold bind at 1.
    unfold ApiService.refreshToken, ApiService.refreshToken_via.
    unfold try_catch, bind at 1, gets. rewrite Htoken1.
    rewrite truthy_nonempty by done. unfold bind at 1. rewrite Hcall.
    simpl. by rewrite <- app_assoc.
Qed.

Lemma refresh_chain_on_401_witness :
  let b := example_browser signed_in_storage
             (replicate 3 (Failure 401 no_error_data)) in
  ApiService.getRefreshToken b = Some "refresh-0"
  ∧ (ApiService.api (ApiService.get "/favorites/") b).1 = Pending
  ∧ length (sent (ApiService.api (ApiService.get "/favorites/") b).2) = 4%nat.
Proof.
  intros b. split; [reflexivity|].
  rewrite (refresh_chain_on_401 3 (ApiService.get "/favorites/") b
             no_error_data "refresh-0" eq_refl eq_refl eq_refl
             ltac:(discriminate)).
  split; reflexivity.
Defined.

(** ** The token keys *)

(** X6. [setTokens] and the two getters are a round trip in a browser; a
    later [setTokens] replaces the pair whole, so the stored pair is
    always the last one written; [clearTokens] removes both; outside a
    browser nothing is stored and nothing is read. *)
Theorem token_keys_round_trip (tokens tokens' : AuthTokens.t) (b : Browser) :
  (is_Some (window b) →
     ApiService.getToken (ApiService.setTokens tokens b)
     = Some (AuthTokens.access tokens)
     ∧ ApiService.getRefreshToken (ApiService.setTokens tokens b)
       = Some (AuthTokens.refresh tokens))
  ∧ ApiService.setTokens tokens' (ApiService.setTokens tokens b)
    = ApiService.setTokens tokens' b
  ∧ ApiService.getToken (ApiService.clearTokens (ApiService.setTokens tokens b))
    = None
  ∧ ApiService.getRefreshToken
      (ApiService.clearTokens (ApiService.setTokens tokens b)) = None
  ∧ (window b = None →
     ApiService.setTokens tokens b = b
     ∧ ApiService.getToken b = None
     ∧ ApiService.getRefreshToken b = None).
Proof.
  split; [|split; [|split; [|split]]].
  - intros [win Hwin].
    unfold ApiService.getToken, ApiService.getRefreshToken, ApiService.setTokens.
    unfold storage_lookup, with_storage. rewrite Hwin. simpl.
    by rewrite lookup_insert_eq, lookup_insert_ne, lookup_insert_eq.
  - unfold ApiService.setTokens, with_storage.
    destruct (window b) as [win|] eqn:Hwin; simpl; [|by rewrite Hwin].
    do 3 f_equal.
    apply map_eq; intros key.
    rewrite !lookup_insert. by repeat case_decide.
  - apply clearTokens_cleared.
  - apply clearTokens_cleared.
  - intros Hwin.
    unfold ApiService.getToken, ApiService.getRefreshToken, ApiService.setTokens.
    unfold storage_lookup, with_storage. by rewrite Hwin.
Qed.

Lemma token_keys_round_trip_witness :
  let b := example_browser signed_in_storage [] in
  is_Some (window b)
  ∧ ApiService.getToken (ApiService.setTokens new_tokens b) = Some "access-1"
  ∧ ApiService.getRefreshToken (ApiService.setTokens new_tokens b)
    = Some "refresh-1".
Proof.
  intros b. assert (Hwin : is_Some (window b)) by (by eexists).
  split; [exact Hwin|].
  exact (proj1 (token_keys_round_trip new_tokens old_tokens b) Hwin).
Defined.

(** ** The search endpoint *)

Lemma search_params_falsy (before after : SearchFilters) (key : string)
    (value : FilterValue) :
  filter_truthy value = false →
  ApiCatalogue.search_params (before ++ (key, value) :: after)
  = ApiCatalogue.search_params (before ++ after).
Proof.
  intros Hfalsy. unfold ApiCatalogue.search_params, SearchFilters in *. f_equal.
  induction before as [|entry before IH].
  - rewrite !app_nil_l, filter_cons. simpl.
    case_decide as Htruthy; [congruence|done].
  - rewrite <- !app_comm_cons, !filter_cons.
    case_decide; by rewrite IH.
Qed.

(** X7. A filter whose value is falsy (an empty string, page 0) is never
    sent: wherever it stands among the filters, [searchMovies] behaves as
    if it were not there.  With every filter falsy the request is the
    bare [/movies/search/?]. *)
Theorem searchMovies_skips_falsy `{Readings} (before after : SearchFilters)
    (key : string) (value : FilterValue) :
  filter_truthy value = false →
  ApiCatalogue.searchMovies (before ++ (key, value) :: after)
  = ApiCatalogue.searchMovies (before ++ after)
  ∧ (Forall (λ entry, filter_truthy entry.2 = false) (before ++ after) →
     ApiCatalogue.searchMovies (before ++ (key, value) :: after)
     = ApiCatalogue.searchMovies []).
Proof.
  intros Hfalsy. unfold ApiCatalogue.searchMovies.
  rewrite (search_params_falsy _ _ _ _ Hfalsy). split; [done|].
  intros Hall. unfold ApiCatalogue.search_params, SearchFilters in *.
  replace (filter (λ entry, filter_truthy entry.2 = true) (before ++ after))
    with (@nil (string * FilterValue)); [done|].
  symmetry. induction Hall as [|entry rest Hentry _ IH]; [done|].
  rewrite filter_cons. case_decide; [congruence|done].
Qed.

Lemma searchMovies_skips_falsy_witness :
  let b := example_browser signed_in_storage
             [Success example_data] in
  filter_truthy (FilterString EmptyString) = false
  ∧ sent (@ApiCatalogue.searchMovies example_readings
            [("query", FilterString "dune"); ("genre", FilterString EmptyString);
             ("page", FilterNumber 2)] b).2
    = sent (@ApiCatalogue.searchMovies example_readings
              [("query", FilterString "dune"); ("page", FilterNumber 2)] b).2.
Proof.
  intros b. split; [reflexivity|].
  exact (f_equal (λ call, sent (call b).2)
           (proj1 (@searchMovies_skips_falsy example_readings
                     [("query", FilterString "dune")]
                     [("page", FilterNumber 2)] "genre"
                     (FilterString EmptyString) eq_refl))).
Defined.

(** ** The query string loses nothing *)

Lemma form_decode_byte (c : Ascii.ascii) (s : string) :
  form_decode (form_encode_byte c +:+ s) = String c (form_decode s).
Proof. destruct c as [[] [] [] [] [] [] [] []]; reflexivity. Qed.

Lemma form_decode_encode (s : string) : form_decode (form_encode s) = s.
Proof.
  induction s as [|c s IH]; [done|].
  cbn [form_encode]. by rewrite form_decode_byte, IH.
Qed.

Lemma occurrences_app (c : Ascii.ascii) (s t : string) :
  occurrences c (s +:+ t) = (occurrences c s + occurrences c t)%nat.
Proof.
  induction s as [|c' s IH]; [done|].
  change (String c' s +:+ t) with (String c' (s +:+ t)).
  cbn [occurrences]. rewrite IH. lia.
Qed.

Lemma form_encode_byte_separators (c : Ascii.ascii) :
  occurrences ampersand (form_encode_byte c) = 0%nat
  ∧ occurrences equals_sign (form_encode_byte c) = 0%nat.
Proof. destruct c as [[] [] [] [] [] [] [] []]; split; reflexivity. Qed.

Lemma form_encode_separators (s : string) :
  occurrences ampersand (form_encode s) = 0%nat
  ∧ occurrences equals_sign (form_encode s) = 0%nat.
Proof.
  induction s as [|c s [IHa IHe]]; [done|].
  cbn [form_encode]. rewrite !occurrences_app, IHa, IHe.
  by destruct (form_encode_byte_separators c) as [-> ->].
Qed.

Lemma split_on_whole (c : Ascii.ascii) (s : string) :
  occurrences c s = 0%nat → split_on c s = [s].
Proof.
  induction s as [|c' s IH]; [done|].
  cbn [occurrences split_on]. case_decide; [done|].
  intros Hrest. by rewrite IH.
Qed.

Lemma split_on_first (c : Ascii.ascii) (s t : string) :
  occurrences c s = 0%nat →
  split_on c (s +:+ String c t) = s :: split_on c t.
Proof.
  induction s as [|c' s IH].
  - intros _. change (EmptyString +:+ String c t) with (String c t).
    cbn [split_on]. by rewrite decide_True.
  - change (String c' s +:+ String c t) with (String c' (s +:+ String c t)).
    cbn [occurrences split_on]. case_decide; [done|].
    intros Hrest. by rewrite IH.
Qed.

Lemma parse_pair_form_pair (p : string * string) : parse_pair (form_pair p) = p.
Proof.
  destruct p as [name value]. unfold parse_pair, form_pair. simpl.
  change (String.append "=" ?s) with (String equals_sign s).
  rewrite split_on_first by apply form_encode_separators.
  rewrite split_on_whole by apply form_encode_separators.
  by rewrite !form_decode_encode.
Qed.

Lemma form_pair_ampersand (p : string * string) :
  occurrences ampersand (form_pair p) = 0%nat.
Proof.
  unfold form_pair. rewrite !occurrences_app.
  destruct (form_encode_separators p.1) as [-> _].
  by destruct (form_encode_separators p.2) as [-> _].
Qed.

Lemma form_pair_equals (p : string * string) :
  occurrences equals_sign (form_pair p) ≠ 0%nat.
Proof. unfold form_pair. rewrite !occurrences_app. simpl. lia. Qed.

Lemma query_nonempty (p : string * string) (rest : list (string * string)) :
  URLSearchParams_toString (p :: rest) ≠ EmptyString.
Proof.
  intros Hempty.
  assert (Hcount : occurrences equals_sign (URLSearchParams_toString (p :: rest))
                   = 0%nat) by by rewrite Hempty.
  pose proof (form_pair_equals p) as Hpair.
  destruct rest as [|q rest]; [done|].
  change (URLSearchParams_toString (p :: q :: rest))
    with (form_pair p +:+ String ampersand
                             (URLSearchParams_toString (q :: rest))) in Hcount.
  rewrite occurrences_app in Hcount. lia.
Qed.

Lemma split_on_query (p : string * string) (rest : list (string * string)) :
  split_on ampersand (URLSearchParams_toString (p :: rest))
  = form_pair p
    :: match rest with
       | [] => []
       | _ => split_on ampersand (URLSearchParams_toString rest)
       end.
Proof.
  destruct rest as [|q rest].
  - simpl. apply split_on_whole, form_pair_ampersand.
  - change (URLSearchParams_toString (p :: q :: rest))
      with (form_pair p +:+ String ampersand
                               (URLSearchParams_toString (q :: rest))).
    by rewrite split_on_first by apply form_pair_ampersand.
Qed.

Lemma parse_query_unfold (p : string * string) (rest : list (string * string)) :
  parse_query (URLSearchParams_toString (p :: rest))
  = parse_pair <$> split_on ampersand (URLSearchParams_toString (p :: rest)).
Proof.
  unfold parse_query.
  destruct (URLSearchParams_toString (p :: rest)) as [|c s] eqn:Hquery; [|done].
  by apply query_nonempty in Hquery.
Qed.

Lemma parse_query_toString (params : list (string * string)) :
  parse_query (URLSearchParams_toString params) = params.
Proof.
  induction params as [|p rest IH]; [done|].
  rewrite parse_query_unfold, split_on_query, fmap_cons, parse_pair_form_pair.
  f_equal. destruct rest as [|q rest]; [done|].
  by rewrite <- parse_query_unfold.
Qed.

(** X8. The query string of a search loses nothing: two sequences of
    parameters (names and values as their UTF-8 bytes) with the same
    serialisation are the same sequence, since every name and value can
    be read back from it.  So the request URL of [searchMovies]
    determines the truthy filters, their order and their values. *)
Theorem URLSearchParams_toString_injective (params params' : list (string * string)) :
  URLSearchParams_toString params = URLSearchParams_toString params' →
  params = params'.
Proof.
  intros Hsame.
  by rewrite <- (parse_query_toString params), Hsame, parse_query_toString.
Qed.

Lemma URLSearchParams_toString_injective_witness :
  ApiCatalogue.search_params
    [("query", FilterString "a&b=c d"); ("page", FilterNumber 2)]
  = [("query", "a&b=c d"); ("page", "2")]
  ∧ URLSearchParams_toString [("query", "a&b=c d"); ("page", "2")]
    = "query=a%26b%3Dc+d&page=2".
Proof.
  split.
  - apply URLSearchParams_toString_injective. vm_compute. reflexivity.
  - vm_compute. reflexivity.
Defined.

(** ** Image URLs and the runtime label *)

Lemma tmdb_not_placeholder (size path placeholder : string) :
  ApiCatalogue.tmdb size path ≠ String (Ascii.ascii_of_N 47) placeholder.
Proof. unfold ApiCatalogue.tmdb. discriminate. Qed.

Lemma tmdb_inj (size path path' : string) :
  ApiCatalogue.tmdb size path = ApiCatalogue.tmdb size path' → path = path'.
Proof.
  unfold ApiCatalogue.tmdb. intros Hsame.
  by apply (inj (String.append _)), (inj (String.append size)) in Hsame.
Qed.

(** X9. Each image helper answers its placeholder exactly when the path
    is missing or the empty string, and otherwise a URL of the image
    host; for a fixed size two different paths never share a URL.  The
    poster helper is the general helper at the poster sizes. *)
Theorem image_url_placeholder_iff_no_path (path path' : option string)
    (size : option string) (poster : option PosterSize)
    (profile : option ProfileSize) :
  (ApiCatalogue.getImageUrl path size = "/placeholder-movie.jpg"
   ↔ truthy path = false)
  ∧ (ApiCatalogue.getBackdropUrl path size = "/placeholder-backdrop.jpg"
     ↔ truthy path = false)
  ∧ (ApiCatalogue.getProfileUrl path profile = "/placeholder-person.jpg"
     ↔ truthy path = false)
  ∧ ApiCatalogue.getPosterUrl path poster
    = ApiCatalogue.getImageUrl path
        (Some (ApiCatalogue.poster_size (default poster_w500 poster)))
  ∧ (truthy path = true → truthy path' = true →
     ApiCatalogue.getImageUrl path size = ApiCatalogue.getImageUrl path' size →
     path = path').
Proof.
  unfold ApiCatalogue.getImageUrl, ApiCatalogue.getBackdropUrl,
    ApiCatalogue.getProfileUrl, ApiCatalogue.getPosterUrl.
  repeat split.
  - destruct path as [p|]; [|done]. destruct (truthy (Some p)); [|done].
    intros Hurl. by apply tmdb_not_placeholder in Hurl.
  - destruct path as [p|]; [|done]. by destruct (truthy (Some p)).
  - destruct path as [p|]; [|done]. destruct (truthy (Some p)); [|done].
    intros Hurl. by apply tmdb_not_placeholder in Hurl.
  - destruct path as [p|]; [|done]. by destruct (truthy (Some p)).
  - destruct path as [p|]; [|done]. destruct (truthy (Some p)); [|done].
    intros Hurl. by apply tmdb_not_placeholder in Hurl.
  - destruct path as [p|]; [|done]. by destruct (truthy (Some p)).
  - intros Hpath Hpath'.
    destruct path as [p|]; [|done]. destruct path' as [p'|]; [|done].
    rewrite Hpath, Hpath'. intros Hurl. f_equal. by apply tmdb_inj in Hurl.
Qed.

Lemma image_url_placeholder_iff_no_path_witness :
  truthy (Some "/a.jpg") = true ∧ truthy (Some "/b.jpg") = true
  ∧ ApiCatalogue.getImageUrl (Some "/a.jpg") None
    ≠ ApiCatalogue.getImageUrl (Some "/b.jpg") None.
Proof.
  split; [reflexivity|]. split; [reflexivity|].
  intros Hurl.
  pose proof (proj2 (proj2 (proj2 (proj2
    (image_url_placeholder_iff_no_path (Some "/a.jpg") (Some "/b.jpg")
       None None None)))) eq_refl eq_refl Hurl) as Hsame.
  discriminate Hsame.
Defined.



(** * Further properties of the stores *)

(** ** Operations that stay on the device *)

#[local] Instance stays_on_device_preorder : PreOrder stays_on_device.
Proof.
  split.
  - intros w. unfold stays_on_device. by intuition.
  - intros w1 w2 w3 (Hn & Hs & Ha & Hf & Hh & Hk)
      (Hn' & Hs' & Ha' & Hf' & Hh' & Hk').
    unfold stays_on_device.
    split; [congruence|]. split; [congruence|]. split; [congruence|].
    split; [congruence|]. split; [congruence|].
    intros key Hkey. rewrite Hk' by done. by apply Hk.
Qed.

Lemma sent_with_storage f (b : Browser) : sent (with_storage f b) = sent b.
Proof. unfold with_storage. by destruct (window b). Qed.

Lemma location_with_storage f (b : Browser) :
  location_href <$> window (with_storage f b) = location_href <$> window b.
Proof. unfold with_storage. by destruct (window b) eqn:Hwin; [|rewrite Hwin]. Qed.

Section OnDevice.
Context `{JSON}.

Lemma set_stays_on_device (f : AppState.t → AppState.t) :
  (∀ state, AppState.favorites (f state) = AppState.favorites state) →
  frames stays_on_device (useAppStore.set f).
Proof.
  intros Hf w. unfold useAppStore.set, modify, stays_on_device, persist. simpl.
  rewrite net_with_storage, sent_with_storage, location_with_storage, Hf.
  repeat (split; [done|]). intros key Hkey.
  apply storage_lookup_with_storage. intros ls. by rewrite lookup_insert_ne.
Qed.

Lemma show_stays_on_device (t : Toast) : frames stays_on_device (show t).
Proof. intros w. unfold show, modify, stays_on_device. simpl. by intuition. Qed.

Lemma on_device_resolves (op : AppOp) (w : World) :
  on_device op = true → (app_op op w).1 = Resolved tt.
Proof.
  destruct op; try discriminate; intros _; simpl; try done.
  - unfold useAppStore.addToWatchlist, bind, gets. by destruct (existsb _ _).
  - unfold useAppStore.addToSearchHistory. by destruct (nonempty _).
Qed.

(** X11. The watchlist, the viewing history and the search history live
    on the device only: adding to them, removing from them and clearing
    them always succeeds, sends nothing to the server (the gateway's
    watchlist endpoints are never called), and leaves the session, the
    cached favorites, the page address and every storage key but the
    app store's own record as they were. *)
Theorem on_device_ops_stay_on_device (op : AppOp) (w : World) :
  on_device op = true →
  (app_op op w).1 = Resolved tt
  ∧ stays_on_device w (exec (app_op op) w).
Proof.
  intros Hop. split; [by apply on_device_resolves|].
  unfold exec. revert w. change (frames stays_on_device (app_op op)).
  destruct op; try discriminate; simpl.
  - unfold useAppStore.addToWatchlist.
    apply (@frames_bind _ stays_on_device _); [apply (@frames_gets _ stays_on_device _)|]. intros present.
    apply frames_if;
      (apply (@frames_bind _ stays_on_device _); [apply show_stays_on_device|]; intros _;
       by apply set_stays_on_device).
  - unfold useAppStore.removeFromWatchlist.
    apply (@frames_bind _ stays_on_device _); [by apply set_stays_on_device|]. intros _.
    apply show_stays_on_device.
  - by apply set_stays_on_device.
  - unfold useAppStore.clearRecentlyViewed.
    apply (@frames_bind _ stays_on_device _); [by apply set_stays_on_device|]. intros _.
    apply show_stays_on_device.
  - unfold useAppStore.addToSearchHistory.
    apply frames_if; [by apply set_stays_on_device|apply (@frames_ret _ stays_on_device _)].
  - unfold useAppStore.clearSearchHistory.
    apply (@frames_bind _ stays_on_device _); [by apply set_stays_on_device|]. intros _.
    apply show_stays_on_device.
Qed.

(** X12. The watchlist is looked up by movie id: after an add the movie
    is in the list and no other answer changes; after a remove the id is
    gone, whatever number of entries had it, and no other answer
    changes. *)
Theorem isInWatchlist_after_update (movie : Movie.t) (movieId k : Z) (w : World) :
  useAppStore.isInWatchlist k (exec (useAppStore.addToWatchlist movie) w)
  = useAppStore.isInWatchlist k w || (Movie.id movie =? k)
  ∧ useAppStore.isInWatchlist k (exec (useAppStore.removeFromWatchlist movieId) w)
    = useAppStore.isInWatchlist k w && negb (k =? movieId).
Proof.
  split.
  - unfold useAppStore.isInWatchlist, useAppStore.addToWatchlist, exec, bind, gets.
    simpl.
    destruct (existsb (λ m, Movie.id m =? Movie.id movie)
                (AppState.watchlist (app w))) eqn:Hin; simpl.
    + destruct (Z.eqb_spec (Movie.id movie) k) as [Heq|Hne];
        [by rewrite <- Heq, Hin | by rewrite orb_false_r].
    + rewrite existsb_app. simpl. by rewrite orb_false_r.
  - unfold useAppStore.isInWatchlist. simpl.
    induction (AppState.watchlist (app w)) as [|m l IH]; [done|].
    rewrite filter_cons. case_decide as Hid.
    + cbn [existsb]. rewrite IH.
      destruct (Z.eqb_spec (Movie.id m) k) as [Heq|Hne]; [|done].
      simpl. rewrite <- Heq. by rewrite (proj2 (Z.eqb_neq _ _) Hid).
    + rewrite IH. cbn [existsb].
      destruct (Z.eqb_spec (Movie.id m) k) as [Heq|Hne]; [|done].
      rewrite <- Heq, Hid, Z.eqb_refl. simpl. by rewrite andb_false_r.
Qed.

End OnDevice.

Lemma on_device_ops_stay_on_device_witness :
  let w := exec (@useAppStore.addToWatchlist example_json movie42) (signed_in_world []) in
  useAppStore.isInWatchlist 42 w = true
  ∧ sent (browser w) = sent (browser (signed_in_world []))
  ∧ auth w = auth (signed_in_world []).
Proof.
  intros w. split; [vm_compute; reflexivity|].
  destruct (@on_device_ops_stay_on_device example_json (AddToWatchlist movie42)
              (signed_in_world []) eq_refl) as (_ & _ & Hsent & Hauth & _).
  split; [exact Hsent | exact Hauth].
Defined.

(** ** The cached favorites *)

Section CachedFavorites.
Context `{JSON}.

Lemma loadFavorites_outcome (w : World) :
  useAppStore.loadFavorites w
  = let loading := useAppStore.set_isLoading true (app w) in
    let b0 :=
      persist "app-storage" (useAppStore.partialize loading) (browser w) in
    match ApiService.getFavorites b0 with
    | (Resolved favorites, b) =>
        let state :=
          useAppStore.set_isLoading false
            (useAppStore.set_favorites favorites loading) in
        (Resolved tt,
         mkWorld (persist "app-storage" (useAppStore.partialize state) b)
           (toasts w) (auth w) state)
    | (Rejected _, b) =>
        let state := useAppStore.set_isLoading false loading in
        (Resolved tt,
         mkWorld (persist "app-storage" (useAppStore.partialize state) b)
           (toasts w) (auth w) state)
    | (Pending, b) => (Pending, mkWorld b (toasts w) (auth w) loading)
    end.
Proof.
  unfold useAppStore.loadFavorites, try_catch, bind, apiService. simpl.
  by destruct (ApiService.getFavorites _) as [[favorites|e|] b].
Qed.

(** X13. [loadFavorites] never fails towards its caller and never
    notifies: when the gateway answers, the cached favorites become the
    server's list, whatever was cached; when the gateway rejects, forced
    logout included, the call still resolves, the cache is as before and
    no notification is shown; either way the loading flag ends cleared
    and the rest of the store is untouched.  Only a call that never
    settles leaves the flag set. *)
Theorem loadFavorites_never_rejects (w : World) :
  let b0 := browser (exec (useAppStore.set (useAppStore.set_isLoading true)) w) in
  let w' := exec useAppStore.loadFavorites w in
  (∀ error, (useAppStore.loadFavorites w).1 ≠ Rejected error)
  ∧ toasts w' = toasts w
  ∧ auth w' = auth w
  ∧ AppState.watchlist (app w') = AppState.watchlist (app w)
  ∧ AppState.recentlyViewed (app w') = AppState.recentlyViewed (app w)
  ∧ AppState.searchHistory (app w') = AppState.searchHistory (app w)
  ∧ match (ApiService.getFavorites b0).1 with
    | Resolved favorites =>
        (useAppStore.loadFavorites w).1 = Resolved tt
        ∧ AppState.favorites (app w') = favorites
        ∧ AppState.isLoading (app w') = false
    | Rejected _ =>
        (useAppStore.loadFavorites w).1 = Resolved tt
        ∧ AppState.favorites (app w') = AppState.favorites (app w)
        ∧ AppState.isLoading (app w') = false
    | Pending =>
        (useAppStore.loadFavorites w).1 = Pending
        ∧ AppState.favorites (app w') = AppState.favorites (app w)
        ∧ AppState.isLoading (app w') = true
    end.
Proof.
  unfold exec. rewrite loadFavorites_outcome. simpl.
  by destruct (ApiService.getFavorites _) as [[favorites|e|] b].
Qed.

Lemma existsb_favorite_filter (movieId k : Z) (l : list FavoriteMovie.t) :
  existsb (λ f, FavoriteMovie.movie_id f =? k)
    (filter (λ f, FavoriteMovie.movie_id f ≠ movieId) l)
  = existsb (λ f, FavoriteMovie.movie_id f =? k) l && negb (k =? movieId).
Proof.
  induction l as [|f l IH]; [done|].
  rewrite filter_cons. case_decide as Hid.
  - cbn [existsb]. rewrite IH.
    destruct (Z.eqb_spec (FavoriteMovie.movie_id f) k) as [Heq|Hne]; [|done].
    simpl. rewrite <- Heq. by rewrite (proj2 (Z.eqb_neq _ _) Hid).
  - rewrite IH. cbn [existsb].
    destruct (Z.eqb_spec (FavoriteMovie.movie_id f) k) as [Heq|Hne]; [|done].
    rewrite <- Heq, Hid, Z.eqb_refl. simpl. by rewrite andb_false_r.
Qed.

(** X14. [isFavorite] answers from the cache, by the movie id of the
    server's records.  After an add that the server confirmed the answer
    is true for the id the server recorded (the id of the movie sent only
    if the server echoes it) and unchanged for every other id; after a
    remove that resolved the answer is false for that id, however many
    cached records carried it, and unchanged for every other id. *)
Theorem isFavorite_after_update (movie : Movie.t) (movieId k : Z) (w : World) :
  (∀ favorite b',
     ApiService.addToFavorites movie (browser w) = (Resolved favorite, b') →
     useAppStore.isFavorite k (exec (useAppStore.addToFavorites movie) w)
     = useAppStore.isFavorite k w || (FavoriteMovie.movie_id favorite =? k))
  ∧ ((useAppStore.removeFromFavorites movieId w).1 = Resolved tt →
     useAppStore.isFavorite k (exec (useAppStore.removeFromFavorites movieId) w)
     = useAppStore.isFavorite k w && negb (k =? movieId)).
Proof.
  split.
  - intros favorite b' Hadd. unfold exec, useAppStore.isFavorite.
    rewrite addToFavorites_outcome, Hadd. simpl.
    rewrite existsb_app. simpl. by rewrite orb_false_r.
  - unfold exec, useAppStore.isFavorite.
    rewrite removeFromFavorites_outcome.
    destruct (find _ _) as [favorite|] eqn:Hfind.
    + destruct (ApiService.removeFromFavorites _ _) as [[[]|e|] b];
        [|done..]. intros _. simpl. apply existsb_favorite_filter.
    + intros _. simpl.
      destruct (Z.eqb_spec k movieId) as [->|Hne];
        [|by rewrite andb_true_r].
      rewrite andb_false_r.
      induction (AppState.favorites (app w)) as [|f l IH]; [done|].
      simpl in Hfind. cbn [existsb].
      destruct (FavoriteMovie.movie_id f =? movieId); [done|]. by apply IH.
Qed.

End CachedFavorites.

Lemma isFavorite_after_update_witness :
  let w := signed_in_world [Success example_data] in
  (ApiService.addToFavorites movie7 (browser w)).1 = Resolved favorite42
  ∧ useAppStore.isFavorite 42
      (exec (@useAppStore.addToFavorites example_json movie7) w) = true
  ∧ useAppStore.isFavorite 7
      (exec (@useAppStore.addToFavorites example_json movie7) w) = false.
Proof.
  intros w. split; [vm_compute; reflexivity|].
  set (b' := (ApiService.addToFavorites movie7 (browser w)).2).
  assert (Hadd : ApiService.addToFavorites movie7 (browser w)
                 = (Resolved favorite42, b')) by (vm_compute; reflexivity).
  split.
  - rewrite (proj1 (@isFavorite_after_update example_json movie7 0 42 w)
               favorite42 b' Hadd).
    vm_compute. reflexivity.
  - rewrite (proj1 (@isFavorite_after_update example_json movie7 0 7 w)
               favorite42 b' Hadd).
    vm_compute. reflexivity.
Defined.

(** ** The persisted records *)

Section GatewayKeys.
Context `{JSON} (key : string).
Hypothesis foreign : foreign_key key.

Lemma logout_keeps_key : frames (keeps_key key) (modify ApiService.logout).
Proof. intros b. by apply clearTokens_foreign. Qed.

Lemma refreshToken_keeps_key : frames (keeps_key key) ApiService.refreshToken.
Proof.
  apply frames_refreshToken; try apply _.
  - intros c b. unfold keeps_key, storage_lookup, dispatch.
    by destruct (net b) as [|[d|st d|] rest].
  - intros t b. by apply setTokens_foreign.
  - intros b. by apply clearTokens_foreign.
  - intros h b. unfold keeps_key, storage_lookup, assign_href.
    destruct (window b) eqn:Hwin; simpl; [done | by rewrite Hwin].
Qed.

Lemma normalised_keeps_key {B} (config : Config) (k : Response → Async Browser B)
    (h : JsError → JsError) :
  (∀ response, frames (keeps_key key) (k response)) →
  frames (keeps_key key)
    (try_catch (bind (ApiService.api config) k) (λ error, throw (h error))).
Proof.
  intros Hk.
  apply (@frames_try_catch _ (keeps_key key) _);
    [|intros e; apply (@frames_throw _ (keeps_key key) _)].
  apply (@frames_bind _ (keeps_key key) _); [by apply api_keeps_key|done].
Qed.

Lemma login_keeps_key (credentials : LoginCredentials.t) :
  frames (keeps_key key) (ApiService.login credentials).
Proof.
  destruct foreign as (Haccess & Hrefresh & Huser).
  unfold ApiService.login. apply normalised_keeps_key. intros response.
  apply (@frames_bind _ (keeps_key key) _).
  { intros b. by apply setTokens_foreign. }
  intros _. apply (@frames_bind _ (keeps_key key) _); [by apply api_keeps_key|].
  intros userResponse. apply (@frames_bind _ (keeps_key key) _).
  { intros b. apply storage_lookup_with_storage. intros ls.
    by rewrite lookup_insert_ne. }
  intros _. apply (@frames_ret _ (keeps_key key) _).
Qed.

Lemma register_keeps_key (credentials : RegisterCredentials.t) :
  frames (keeps_key key) (ApiService.register credentials).
Proof.
  apply normalised_keeps_key. intros response.
  apply (@frames_ret _ (keeps_key key) _).
Qed.

Lemma getFavorites_keeps_key : frames (keeps_key key) ApiService.getFavorites.
Proof.
  apply normalised_keeps_key. intros response.
  apply (@frames_ret _ (keeps_key key) _).
Qed.

Lemma addToFavorites_keeps_key (movie : Movie.t) :
  frames (keeps_key key) (ApiService.addToFavorites movie).
Proof.
  apply normalised_keeps_key. intros response.
  apply (@frames_ret _ (keeps_key key) _).
Qed.

Lemma removeFromFavorites_keeps_key (favoriteId : Z) :
  frames (keeps_key key) (ApiService.removeFromFavorites favoriteId).
Proof.
  apply normalised_keeps_key. intros response.
  apply (@frames_ret _ (keeps_key key) _).
Qed.

End GatewayKeys.

Lemma persist_lookup (name value : string) (b : Browser) :
  is_Some (window b) → storage_lookup name (persist name value b) = Some value.
Proof.
  intros [win Hwin]. unfold storage_lookup, persist, with_storage.
  rewrite Hwin. simpl. by rewrite lookup_insert_eq.
Qed.

Section InStep.
Context `{JSON}.

#[local] Instance stays_in_step_preorder : PreOrder stays_in_step.
Proof.
  split.
  - by intros w Hw.
  - intros w1 w2 w3 H12 H23 Hw. by apply H23, H12.
Qed.

Lemma auth_set_in_step (f : AuthState.t → AuthState.t) :
  frames stays_in_step (useAuthStore.set f).
Proof.
  intros w [Hauth Happ]. unfold useAuthStore.set, modify, records_in_step. simpl.
  split.
  - apply persist_lookup. by eapply storage_lookup_window.
  - by rewrite persist_other.
Qed.

Lemma app_set_in_step (f : AppState.t → AppState.t) :
  frames stays_in_step (useAppStore.set f).
Proof.
  intros w [Hauth Happ]. unfold useAppStore.set, modify, records_in_step. simpl.
  split.
  - by rewrite persist_other.
  - apply persist_lookup. by eapply storage_lookup_window.
Qed.

Lemma show_in_step (t : Toast) : frames stays_in_step (show t).
Proof. by intros w Hw. Qed.

Lemma apiService_in_step {A} (c : Async Browser A) :
  frames (keeps_key "auth-storage") c →
  frames (keeps_key "app-storage") c →
  frames stays_in_step (apiService c).
Proof.
  intros Hauth Happ w [Hw1 Hw2]. unfold apiService, records_in_step.
  specialize (Hauth (browser w)). specialize (Happ (browser w)).
  unfold keeps_key in *.
  destruct (c (browser w)) as [o b]. simpl in *. by rewrite Hauth, Happ.
Qed.

Lemma foreign_app_storage : foreign_key "app-storage".
Proof. by repeat split. Qed.

Ltac in_step :=
  repeat first
    [ apply (@frames_try_catch _ stays_in_step _); [|intros ?]
    | apply (@frames_bind _ stays_in_step _); [|intros ?]
    | apply (@frames_ret _ stays_in_step _)
    | apply (@frames_throw _ stays_in_step _)
    | apply (@frames_gets _ stays_in_step _)
    | apply auth_set_in_step
    | apply app_set_in_step
    | apply show_in_step
    | apply apiService_in_step ].

Ltac gateway_keys :=
  first
    [ apply logout_keeps_key
    | apply refreshToken_keeps_key
    | apply login_keeps_key
    | apply register_keeps_key
    | apply getFavorites_keeps_key
    | apply addToFavorites_keeps_key
    | apply removeFromFavorites_keeps_key ];
  first [apply foreign_auth_storage | apply foreign_app_storage].

Lemma auth_op_in_step (op : AuthOp) : frames stays_in_step (auth_op op).
Proof.
  destruct op as [credentials|credentials| | |]; simpl.
  - unfold useAuthStore.login. in_step; gateway_keys.
  - unfold useAuthStore.register. in_step; gateway_keys.
  - unfold useAuthStore.logout. in_step; gateway_keys.
  - unfold useAuthStore.refreshToken. in_step; gateway_keys.
  - unfold useAuthStore.checkAuth. in_step.
    destruct a as [access|]; [|in_step].
    destruct a0 as [str|]; [|in_step].
    destruct (truthy _ && truthy _); [|in_step].
    destruct (parse_user str); in_step; gateway_keys.
Qed.

Lemma app_op_in_step (op : AppOp) : frames stays_in_step (app_op op).
Proof.
  destruct op; simpl.
  - unfold useAppStore.loadFavorites. in_step; gateway_keys.
  - unfold useAppStore.addToFavorites. in_step; gateway_keys.
  - unfold useAppStore.removeFromFavorites. in_step.
    destruct (find _ _); in_step; gateway_keys.
  - unfold useAppStore.addToWatchlist. in_step. destruct a; in_step.
  - unfold useAppStore.removeFromWatchlist. in_step.
  - unfold useAppStore.addToRecentlyViewed. in_step.
  - unfold useAppStore.clearRecentlyViewed. in_step.
  - unfold useAppStore.addToSearchHistory. destruct (nonempty _); in_step.
  - unfold useAppStore.clearSearchHistory. in_step.
  - unfold useAppStore.clearAll. in_step.
Qed.

(** X15. The two persisted records follow their stores through every
    operation of both stores, whatever the server answers: if
    [auth-storage] and [app-storage] said what the stores held before a
    run of operations, they say what the stores hold after it.  The
    gateway's own writes and its forced logout never touch either
    record. *)
Theorem records_stay_in_step (ops : list (AuthOp + AppOp)) (w : World) :
  records_in_step w → records_in_step (store_ops ops w).
Proof.
  revert w. induction ops as [|op ops IH]; intros w Hw; [done|].
  apply IH. destruct op as [op|op]; simpl.
  - by apply auth_op_in_step.
  - by apply app_op_in_step.
Qed.

End InStep.

(** ** Signing in, reloading, signing out *)

Lemma api_success (config : Config) (b : Browser) (d : ResponseData)
    (rest : list Reply) :
  net b = Success d :: rest →
  let first := ApiService.attach_token config b in
  ApiService.api config b
  = (Resolved (mkResponse d first),
     mkBrowser (window b) rest (sent b ++ [first])).
Proof.
  intros Hnet first. rewrite api_unfold.
  unfold bind, ApiService.request_interceptor, gets, try_catch, dispatch.
  by rewrite Hnet.
Qed.

Lemma request_line_attach_token (config : Config) (b : Browser) :
  request_line (ApiService.attach_token config b) = request_line config.
Proof.
  unfold ApiService.attach_token.
  destruct (ApiService.getToken b) as [token|]; [|done].
  by destruct (truthy (Some token)).
Qed.

Section SignIn.
Context `{JSON}.

Lemma login_answered (credentials : LoginCredentials.t) (b : Browser)
    (win : Window) (d1 d2 : ResponseData) (rest : list Reply) :
  window b = Some win →
  net b = Success d1 :: Success d2 :: rest →
  let tokens := as_tokens d1 in
  let user := as_profile_user d2 in
  ApiService.login credentials b
  = (Resolved (user, tokens),
     mkBrowser
       (Some (mkWindow
                (<["user" := stringify_user user]>
                   (<["refresh_token" := AuthTokens.refresh tokens]>
                      (<["access_token" := AuthTokens.access tokens]>
                         (localStorage win))))
                (location_href win)))
       rest
       (sent b
        ++ [ApiService.attach_token
              (ApiService.post "/token/" (LoginBody credentials)) b;
            mkConfig GET "/profile/" NoBody
              (if truthy (Some (AuthTokens.access tokens))
               then Some ("Bearer " +:+ AuthTokens.access tokens)
               else None)
              false])).
Proof.
  intros Hwin Hnet tokens user.
  set (first := ApiService.attach_token
                  (ApiService.post "/token/" (LoginBody credentials)) b).
  set (b1 := mkBrowser (window b) (Success d2 :: rest) (sent b ++ [first])).
  assert (H1 : ApiService.api (ApiService.post "/token/" (LoginBody credentials)) b
               = (Resolved (mkResponse d1 first), b1))
    by apply (api_success _ b d1 _ Hnet).
  set (b2 := mkBrowser
               (Some (mkWindow
                        (<["refresh_token" := AuthTokens.refresh tokens]>
                           (<["access_token" := AuthTokens.access tokens]>
                              (localStorage win)))
                        (location_href win)))
               (Success d2 :: rest) (sent b ++ [first])).
  assert (Hb2 : ApiService.setTokens tokens b1 = b2).
  { unfold ApiService.setTokens, with_storage, b1. cbn [window]. by rewrite Hwin. }
  assert (Hsecond : ApiService.attach_token (ApiService.get "/profile/") b2
                    = mkConfig GET "/profile/" NoBody
                        (if truthy (Some (AuthTokens.access tokens))
                         then Some ("Bearer " +:+ AuthTokens.access tokens)
                         else None)
                        false).
  { unfold ApiService.attach_token, ApiService.getToken, storage_lookup, b2.
    cbn [window localStorage mbind option_bind].
    rewrite lookup_insert_ne, lookup_insert_eq by done.
    by destruct (truthy (Some (AuthTokens.access tokens))). }
  pose proof (api_success (ApiService.get "/profile/") b2 d2 rest eq_refl) as H2.
  cbn zeta in H2. rewrite Hsecond in H2.
  unfold ApiService.login, try_catch, bind, modify, ret.
  rewrite H1. cbn [response_data]. fold tokens. rewrite Hb2, H2.
  cbn [response_data]. fold user. unfold with_storage, b2.
  cbn [window net sent localStorage location_href]. by rewrite <- app_assoc.
Qed.

(** X16. A sign-in the server answers directly (token pair, then
    profile) resolves with the store authenticated as the profile's user
    with the pair just issued.  Two requests are sent: the credentials to
    [/token/], then [GET /profile/] whose [Authorization] header is
    [Bearer] and the access token just issued, whatever token was stored
    before (no header at all when the issued access token is empty).  If
    the issued access token is not empty and the user survives
    serialisation, [checkAuth] on the browser the sign-in left (a page
    reload) restores exactly that user and that pair, whatever the store
    held when it ran. *)
Theorem login_survives_reload (credentials : LoginCredentials.t) (w w2 : World)
    (d1 d2 : ResponseData) (rest : list Reply) :
  is_Some (window (browser w)) →
  net (browser w) = Success d1 :: Success d2 :: rest →
  let tokens := as_tokens d1 in
  let user := as_profile_user d2 in
  let w1 := exec (useAuthStore.login credentials) w in
  (useAuthStore.login credentials w).1 = Resolved tt
  ∧ auth w1 = AuthState.mk (Some user) (Some tokens) true false
  ∧ net (browser w1) = rest
  ∧ (∃ first,
       request_line first = (POST, "/token/", LoginBody credentials)
       ∧ sent (browser w1)
         = sent (browser w)
           ++ [first;
               mkConfig GET "/profile/" NoBody
                 (if truthy (Some (AuthTokens.access tokens))
                  then Some ("Bearer " +:+ AuthTokens.access tokens)
                  else None)
                 false])
  ∧ (AuthTokens.access tokens ≠ EmptyString →
     parse_user (stringify_user user) = Some (Some user) →
     stringify_user user ≠ EmptyString →
     browser w2 = browser w1 →
     auth (exec useAuthStore.checkAuth w2)
     = AuthState.mk (Some user) (Some tokens) true
         (AuthState.isLoading (auth w2))).
Proof.
  intros [win Hwin] Hnet tokens user w1.
  pose proof (login_outcome credentials w) as Hlogin. simpl in Hlogin.
  set (b0 := persist "auth-storage" _ (browser w)) in Hlogin.
  assert (Hwin0 : window b0
                  = Some (mkWindow (<["auth-storage" :=
                            useAuthStore.partialize
                              (useAuthStore.set_isLoading true (auth w))]>
                            (localStorage win)) (location_href win))).
  { unfold b0, persist, with_storage. by rewrite Hwin. }
  assert (Hnet0 : net b0 = Success d1 :: Success d2 :: rest).
  { unfold b0, persist. by rewrite net_with_storage. }
  assert (Hsent0 : sent b0 = sent (browser w)).
  { unfold b0, persist. by rewrite sent_with_storage. }
  rewrite (login_answered credentials b0 _ d1 d2 rest Hwin0 Hnet0) in Hlogin.
  fold tokens user in Hlogin. subst w1. unfold exec. rewrite Hlogin.
  cbn [fst snd auth browser]. split; [done|]. split; [done|].
  split; [unfold persist; by rewrite net_with_storage|]. split.
  - exists (ApiService.attach_token
              (ApiService.post "/token/" (LoginBody credentials)) b0).
    split; [apply request_line_attach_token|].
    unfold persist. rewrite sent_with_storage. cbn [sent].
    by rewrite Hsent0.
  - intros Haccess Hparse Hstr Hbrowser. rewrite checkAuth_outcome, Hbrowser.
    unfold persist at 1 2 3, with_storage, storage_lookup.
    cbn [window localStorage mbind option_bind].
    rewrite !(lookup_insert_ne _ "auth-storage") by done.
    rewrite lookup_insert_eq.
    rewrite (lookup_insert_ne _ "user" "access_token") by done.
    rewrite (lookup_insert_ne _ "refresh_token" "access_token") by done.
    rewrite lookup_insert_eq.
    rewrite (lookup_insert_ne _ "user" "refresh_token") by done.
    rewrite lookup_insert_eq.
    rewrite !truthy_nonempty by done. cbn [andb]. rewrite Hparse.
    cbn [snd auth]. f_equal. f_equal.
    destruct tokens as [access refresh]. cbn [AuthTokens.access AuthTokens.refresh].
    f_equal. unfold or_else. by destruct refresh.
Qed.

End SignIn.

Lemma login_survives_reload_witness :
  let w := example_world
             (example_browser signed_in_storage
                [Success example_data; Success example_data]) in
  let w1 := exec (@useAuthStore.login example_json alice_credentials) w in
  let w2 := example_world (browser w1) in
  AuthTokens.access (as_tokens example_data) ≠ EmptyString
  ∧ auth w1 = AuthState.mk (Some alice) (Some new_tokens) true false
  ∧ (Authorization <$> sent (browser w1))
    = [Some "Bearer access-0"; Some "Bearer access-1"]
  ∧ auth (exec (@useAuthStore.checkAuth example_json) w2)
    = AuthState.mk (Some alice) (Some new_tokens) true false.
Proof.
  intros w w1 w2.
  assert (Haccess : AuthTokens.access (as_tokens example_data) ≠ EmptyString)
    by (vm_compute; discriminate).
  destruct (@login_survives_reload example_json alice_credentials w w2
              example_data example_data [] (ex_intro _ _ eq_refl) eq_refl)
    as (_ & Hauth & _ & _ & Hreload).
  split; [exact Haccess|]. split; [exact Hauth|].
  split; [vm_compute; reflexivity|].
  apply Hreload;
    [exact Haccess | vm_compute; reflexivity | vm_compute; discriminate
    | reflexivity].
Defined.

Lemma records_stay_in_step_witness :
  let w := exec (@useAppStore.set example_json (λ state, state))
             (signed_in_world session_expired) in
  @records_in_step example_json w
  ∧ @records_in_step example_json
      (@store_ops example_json
         [inr LoadFavorites; inr (AddToWatchlist movie42); inl Logout] w).
Proof.
  intros w.
  assert (Hw : @records_in_step example_json w)
    by (split; vm_compute; reflexivity).
  split; [exact Hw|].
  exact (@records_stay_in_step example_json _ w Hw).
Defined.

Section StartUp.
Context `{JSON}.



End StartUp.


(** * Further properties of the callers *)

(** ** The movie card *)



Section FavoriteClick.
Context `{JSON} `{Readings}.



End FavoriteClick.


Section UnfavoriteClick.
Context `{JSON} `{Readings}.



End UnfavoriteClick.


Lemma existsb_favorite_key (key : FavoriteMovie.t → Z) (k : Z)
    (l : list FavoriteMovie.t) :
  existsb (λ f, key f =? k) l = true ↔ k ∈ key <$> l.
Proof.
  induction l as [|f l IH].
  - simpl. split; [done | by intros ?%elem_of_nil].
  - cbn [existsb]. rewrite fmap_cons, orb_true_iff, IH, elem_of_cons, Z.eqb_eq.
    split; (intros [Heq|Hin]; [left; by symmetry | by right]).
Qed.

(** X20. The card and the store do not ask the same question.  Left to
    itself the card shows a movie as a favourite when some cached record's
    own id is the movie's id; the store's [isFavorite] answers by the
    records' movie ids.  The two agree when every cached record's id is
    its movie's id; when no record id is the movie's id the card shows
    the movie as not a favourite whatever the store answers, so the next
    click adds it again. *)
Theorem card_favorite_test_by_record_id (props : MovieCard.Props) (w : World) :
  MovieCard.isFavoriteProp props = None →
  let movieId := Movie.id (MovieCard.movie props) in
  let favorites := AppState.favorites (app w) in
  (MovieCard.isFavorite props w = true ↔ movieId ∈ FavoriteMovie.id <$> favorites)
  ∧ (useAppStore.isFavorite movieId w = true
     ↔ movieId ∈ FavoriteMovie.movie_id <$> favorites)
  ∧ (Forall (λ f, FavoriteMovie.id f = FavoriteMovie.movie_id f) favorites →
     MovieCard.isFavorite props w = useAppStore.isFavorite movieId w)
  ∧ (movieId ∉ FavoriteMovie.id <$> favorites →
     MovieCard.isFavorite props w = false).
Proof.
  intros Hprop movieId favorites.
  unfold MovieCard.isFavorite, useAppStore.isFavorite. rewrite Hprop.
  fold movieId favorites.
  split; [apply (existsb_favorite_key FavoriteMovie.id)|].
  split; [apply (existsb_favorite_key FavoriteMovie.movie_id)|].
  split.
  - intros Hids. induction Hids as [|f l Hf _ IH]; [done|].
    cbn [existsb]. by rewrite Hf, IH.
  - intros Hnot.
    destruct (existsb _ favorites) eqn:Htest; [|done].
    by apply (existsb_favorite_key FavoriteMovie.id) in Htest.
Qed.

Lemma card_favorite_test_by_record_id_witness :
  let props := MovieCard.mkProps movie42 None None in
  let w :=
    mkWorld (example_browser ∅ []) [] signed_in_auth
      (AppState.mk [favorite42] [] [] [] false) in
  MovieCard.isFavoriteProp props = None
  ∧ useAppStore.isFavorite 42 w = true
  ∧ MovieCard.isFavorite props w = false.
Proof.
  intros props w. split; [reflexivity|]. split; [reflexivity|].
  apply (proj2 (proj2 (proj2
    (card_favorite_test_by_record_id props w eq_refl)))).
  vm_compute. intros Hin. apply list_elem_of_singleton in Hin. discriminate Hin.
Defined.

Section WatchlistClick.
Context `{JSON} `{Readings}.


End WatchlistClick.


(** ** The movie store *)

Section MovieStore.
Context `{Readings}.

(** X22. [loadMovieRecommendations] never fails towards its caller: the
    recommendations become the server's when the gateway answers and are
    as before when it rejects, the selected movie is never touched, and
    the loading flag ends cleared unless the call never settles.  The
    store always asks for the default ten recommendations. *)
Theorem loadMovieRecommendations_never_rejects (movieId : Z) (b : Browser)
    (state : MovieState.t) :
  let run := useMovieStore.loadMovieRecommendations movieId (b, state) in
  let state' := run.2.2 in
  (∀ error, run.1 ≠ Rejected error)
  ∧ MovieState.selectedMovie state' = MovieState.selectedMovie state
  ∧ run.2.1 = (ApiCatalogue.getMovieRecommendations movieId (Some 10) b).2
  ∧ match (ApiCatalogue.getMovieRecommendations movieId (Some 10) b).1 with
    | Resolved response =>
        run.1 = Resolved tt
        ∧ MovieState.movieRecommendations state'
          = MovieRecommendationResponse.recommendations response
        ∧ MovieState.isLoading state' = false
    | Rejected _ =>
        run.1 = Resolved tt
        ∧ MovieState.movieRecommendations state'
          = MovieState.movieRecommendations state
        ∧ MovieState.isLoading state' = false
    | Pending =>
        run.1 = Pending
        ∧ MovieState.movieRecommendations state'
          = MovieState.movieRecommendations state
        ∧ MovieState.isLoading state' = true
    end.
Proof.
  change (ApiCatalogue.getMovieRecommendations movieId (Some 10))
    with (ApiCatalogue.getMovieRecommendations movieId None).
  unfold useMovieStore.loadMovieRecommendations, try_catch, bind,
    useMovieStore.set, useMovieStore.on_gateway, modify.
  cbn [fst snd].
  by destruct (ApiCatalogue.getMovieRecommendations movieId None b)
    as [[response|e|] b'].
Qed.

End MovieStore.

(** ** The two sign-ins *)

Lemma dispatch_keeps_key (key : string) (config : Config) :
  frames (keeps_key key) (dispatch config).
Proof.
  intros b. unfold keeps_key, storage_lookup, dispatch.
  by destruct (net b) as [|[d|st d|] rest].
Qed.

Lemma assign_href_keeps_key (key : string) (href : string) :
  frames (keeps_key key) (assign_href href).
Proof.
  intros b. unfold keeps_key, storage_lookup, assign_href.
  destruct (window b) eqn:Hwin; simpl; [done | by rewrite Hwin].
Qed.

Lemma setItem_keeps_key (key name value : string) :
  key ≠ name → frames (keeps_key key) (setItem name value).
Proof.
  intros Hne b. unfold keeps_key, storage_lookup, setItem.
  destruct (window b) eqn:Hwin; simpl; [|by rewrite Hwin].
  by rewrite lookup_insert_ne.
Qed.

(** X23. Signing in on the login page does not sign the gateway in: the
    page posts the credentials without the gateway, keeps the access
    token under the key [token] and swallows every failure.  Whatever
    the server answers, the call never rejects, the gateway's three keys
    are as before, so every later gateway request carries the bearer it
    would have carried without the sign-in, and no refresh token is
    kept. *)
Theorem handleLogin_leaves_gateway_signed_out (username password : string)
    (b : Browser) :
  let run := LoginPage.handleLogin username password b in
  (∀ error, run.1 ≠ Rejected error)
  ∧ ApiService.getToken run.2 = ApiService.getToken b
  ∧ ApiService.getRefreshToken run.2 = ApiService.getRefreshToken b
  ∧ storage_lookup "user" run.2 = storage_lookup "user" b
  ∧ (∀ config,
       ApiService.attach_token config run.2 = ApiService.attach_token config b)
  ∧ (∀ d rest win,
       net b = Success d :: rest → window b = Some win →
       run.1 = Resolved tt
       ∧ storage_lookup "token" run.2 = Some (AuthTokens.access (as_tokens d))
       ∧ location_href <$> window run.2 = Some "/"
       ∧ Authorization <$> sent run.2 = (Authorization <$> sent b) ++ [None]).
Proof.
  intros run.
  assert (Hkeys : ∀ key, key ≠ "token" → keeps_key key b run.2).
  { intros key Hkey. revert b run.
    change (frames (keeps_key key) (LoginPage.handleLogin username password)).
    unfold LoginPage.handleLogin.
    apply (@frames_try_catch _ (keeps_key key) _);
      [|intros e; apply (@frames_ret _ (keeps_key key) _)].
    apply (@frames_bind _ (keeps_key key) _); [apply dispatch_keeps_key|].
    intros response.
    apply (@frames_bind _ (keeps_key key) _); [by apply setItem_keeps_key|].
    intros _. apply assign_href_keeps_key. }
  split.
  { intros error. unfold run, LoginPage.handleLogin, try_catch, ret.
    by destruct (bind _ _ b) as [[[]|e|] b']. }
  split; [by apply Hkeys|]. split; [by apply Hkeys|]. split; [by apply Hkeys|].
  split.
  { intros config. unfold ApiService.attach_token.
    by rewrite (Hkeys "access_token" ltac:(done) : ApiService.getToken _ = _). }
  intros d rest win Hnet Hwin.
  unfold run, LoginPage.handleLogin, try_catch, bind, dispatch, setItem,
    router_push, assign_href.
  rewrite Hnet. cbn [window net sent]. rewrite Hwin.
  cbn [window net sent localStorage location_href fst snd].
  unfold storage_lookup. cbn [window localStorage location_href sent].
  rewrite lookup_insert_eq. split; [done|]. split; [done|]. split; [done|].
  by rewrite fmap_app.
Qed.

Lemma handleLogin_leaves_gateway_signed_out_witness :
  let b := example_browser ∅ [Success example_data] in
  let b' := (LoginPage.handleLogin "alice" "pw" b).2 in
  storage_lookup "token" b' = Some "access-1"
  ∧ ApiService.getToken b' = None.
Proof.
  intros b b'.
  destruct (handleLogin_leaves_gateway_signed_out "alice" "pw" b)
    as (_ & Htoken & _ & _ & _ & Hanswered).
  destruct (Hanswered example_data [] (mkWindow ∅ "/") eq_refl eq_refl)
    as (_ & Hstored & _).
  split; [exact Hstored | exact Htoken].
Defined.

Section UnownedKeys.
Context `{JSON} (key : string).
Hypothesis unowned : unowned_key key.

#[local] Instance world_keeps_key_preorder : PreOrder (world_keeps_key key).
Proof.
  split.
  - by intros w.
  - intros w1 w2 w3 H12 H23. unfold world_keeps_key, keeps_key in *. congruence.
Qed.

Lemma auth_set_keeps_key (f : AuthState.t → AuthState.t) :
  frames (world_keeps_key key) (useAuthStore.set f).
Proof.
  intros w. unfold world_keeps_key, keeps_key, useAuthStore.set, modify. simpl.
  apply persist_other. apply unowned.
Qed.

Lemma app_set_keeps_key (f : AppState.t → AppState.t) :
  frames (world_keeps_key key) (useAppStore.set f).
Proof.
  intros w. unfold world_keeps_key, keeps_key, useAppStore.set, modify. simpl.
  apply persist_other. apply unowned.
Qed.

Lemma show_keeps_key (t : Toast) : frames (world_keeps_key key) (show t).
Proof. by intros w. Qed.

Lemma apiService_keeps_key {A} (c : Async Browser A) :
  frames (keeps_key key) c → frames (world_keeps_key key) (apiService c).
Proof.
  intros Hc w. unfold world_keeps_key, apiService. specialize (Hc (browser w)).
  by destruct (c (browser w)) as [o b].
Qed.

Ltac keeps_world :=
  repeat first
    [ apply (@frames_try_catch _ (world_keeps_key key) _); [|intros ?]
    | apply (@frames_bind _ (world_keeps_key key) _); [|intros ?]
    | apply (@frames_ret _ (world_keeps_key key) _)
    | apply (@frames_throw _ (world_keeps_key key) _)
    | apply (@frames_gets _ (world_keeps_key key) _)
    | apply auth_set_keeps_key
    | apply app_set_keeps_key
    | apply show_keeps_key
    | apply apiService_keeps_key ].

Ltac gateway_key :=
  first
    [ apply logout_keeps_key
    | apply refreshToken_keeps_key
    | apply login_keeps_key
    | apply register_keeps_key
    | apply getFavorites_keeps_key
    | apply addToFavorites_keeps_key
    | apply removeFromFavorites_keeps_key ];
  apply unowned.

Lemma store_op_keeps_key (op : AuthOp + AppOp) :
  frames (world_keeps_key key) (store_op op).
Proof.
  destruct op as [[credentials|credentials| | |]|op]; simpl.
  - unfold useAuthStore.login. keeps_world; gateway_key.
  - unfold useAuthStore.register. keeps_world; gateway_key.
  - unfold useAuthStore.logout. keeps_world; gateway_key.
  - unfold useAuthStore.refreshToken. keeps_world; gateway_key.
  - unfold useAuthStore.checkAuth. keeps_world.
    destruct a as [access|]; [|keeps_world].
    destruct a0 as [str|]; [|keeps_world].
    destruct (truthy _ && truthy _); [|keeps_world].
    destruct (parse_user str); keeps_world; gateway_key.
  - destruct op; simpl.
    + unfold useAppStore.loadFavorites. keeps_world; gateway_key.
    + unfold useAppStore.addToFavorites. keeps_world; gateway_key.
    + unfold useAppStore.removeFromFavorites. keeps_world.
      destruct (find _ _); keeps_world; gateway_key.
    + unfold useAppStore.addToWatchlist. keeps_world. destruct a; keeps_world.
    + unfold useAppStore.removeFromWatchlist. keeps_world.
    + unfold useAppStore.addToRecentlyViewed. keeps_world.
    + unfold useAppStore.clearRecentlyViewed. keeps_world.
    + unfold useAppStore.addToSearchHistory. destruct (nonempty _); keeps_world.
    + unfold useAppStore.clearSearchHistory. keeps_world.
    + unfold useAppStore.clearAll. keeps_world.
Qed.

Lemma store_ops_keep_key (ops : list (AuthOp + AppOp)) (w : World) :
  storage_lookup key (browser (store_ops ops w)) = storage_lookup key (browser w).
Proof.
  revert w. induction ops as [|op ops IH]; intros w; [done|].
  simpl. rewrite IH. apply store_op_keeps_key.
Qed.

End UnownedKeys.

Lemma unowned_token : unowned_key "token".
Proof. by repeat split. Qed.

Section FavoritesPageSession.
Context `{JSON}.

(** X24. The favourites page never sees a session of the stores.  The
    gateway and the stores write five storage keys and no other, so the
    key [token] the page reads is as it was after any run of store
    operations, a successful sign-in included; if it was missing or
    empty, the page's effect sends nothing, shows no favourites and
    sends the user to [/login]. *)
Theorem favorites_page_ignores_store_session (ops : list (AuthOp + AppOp))
    (w : World) (favorites : list FavoriteMovie.t) (token : option string)
    (alerts : list string) :
  truthy (storage_lookup "token" (browser w)) = false →
  let b := browser (store_ops ops w) in
  let run := FavoritesPage.effect (FavoritesPage.mkPage b favorites token alerts) in
  storage_lookup "token" b = storage_lookup "token" (browser w)
  ∧ sent (FavoritesPage.page_browser run.2) = sent b
  ∧ net (FavoritesPage.page_browser run.2) = net b
  ∧ FavoritesPage.favorites run.2 = favorites
  ∧ (is_Some (window b) →
     run.1 = Resolved tt
     ∧ location_href <$> window (FavoritesPage.page_browser run.2)
       = Some "/login").
Proof.
  intros Hmissing b run.
  assert (Hkey : storage_lookup "token" b = storage_lookup "token" (browser w))
    by apply (store_ops_keep_key "token" unowned_token).
  split; [exact Hkey|].
  assert (Hrun : run
    = FavoritesPage.on_browser (router_push "/login")
        (FavoritesPage.mkPage b favorites (storage_lookup "token" b) alerts)).
  { unfold run, FavoritesPage.effect, bind, gets, FavoritesPage.setToken, modify.
    cbn [FavoritesPage.page_browser FavoritesPage.favorites FavoritesPage.token
         FavoritesPage.alerts].
    rewrite Hkey in *.
    destruct (storage_lookup "token" (browser w)) as [stored|]; [|done].
    by rewrite Hmissing. }
  rewrite Hrun. unfold FavoritesPage.on_browser, router_push, assign_href.
  cbn [FavoritesPage.page_browser FavoritesPage.favorites FavoritesPage.token
       FavoritesPage.alerts].
  destruct (window b) as [win|] eqn:Hwin;
    cbn [fst snd FavoritesPage.page_browser FavoritesPage.favorites sent net
         window location_href fmap option_fmap option_map].
  - split; [done|]. split; [done|]. split; [done|]. intros _. by split.
  - split; [done|]. split; [done|]. split; [done|]. by intros [? ?].
Qed.

End FavoritesPageSession.

Lemma favorites_page_ignores_store_session_witness :
  let w := example_world
             (example_browser ∅ [Success example_data; Success example_data]) in
  let b := browser (@store_ops example_json [inl (Login alice_credentials)] w) in
  let run := FavoritesPage.effect (FavoritesPage.mkPage b [] None []) in
  truthy (storage_lookup "token" (browser w)) = false
  ∧ AuthState.isAuthenticated
      (auth (@store_ops example_json [inl (Login alice_credentials)] w)) = true
  ∧ location_href <$> window (FavoritesPage.page_browser run.2) = Some "/login".
Proof.
  intros w b run. split; [reflexivity|]. split; [vm_compute; reflexivity|].
  destruct (@favorites_page_ignores_store_session example_json
              [inl (Login alice_credentials)] w [] None [] eq_refl)
    as (_ & _ & _ & _ & Hredirect).
  apply Hredirect. vm_compute. by eexists.
Defined.

(** ** The further properties, on the examples *)

Lemma handleError_message_and_status_witness :
  let error :=
    AxiosError (ApiService.get "/favorites/")
      (Some (404, mkErrorData None (Some "Not found."))) in
  ApiService.handleError error = ApiError.mk "Not found." 404
  ∧ ApiError.error (ApiService.handleError error) ≠ EmptyString
  ∧ ApiError.status (ApiService.handleError error) = 404.
Proof.
  intros error. split; [reflexivity|].
  exact (handleError_message_and_status error).
Defined.

Lemma isInWatchlist_after_update_witness :
  let w := signed_in_world [] in
  useAppStore.isInWatchlist 42
    (exec (@useAppStore.addToWatchlist example_json movie42) w) = true
  ∧ useAppStore.isInWatchlist 42
      (exec (@useAppStore.removeFromWatchlist example_json 42)
         (exec (@useAppStore.addToWatchlist example_json movie42) w)) = false.
Proof.
  intros w. split.
  - rewrite (proj1 (@isInWatchlist_after_update example_json movie42 0 42 w)).
    reflexivity.
  - rewrite (proj2 (@isInWatchlist_after_update example_json movie42 42 42
                      (exec (@useAppStore.addToWatchlist example_json movie42) w))).
    reflexivity.
Defined.

Lemma loadFavorites_never_rejects_witness :
  let w := signed_in_world session_expired in
  (@useAppStore.loadFavorites example_json w).1 = Resolved tt
  ∧ toasts (exec (@useAppStore.loadFavorites example_json) w) = []
  ∧ AppState.isLoading (app (exec (@useAppStore.loadFavorites example_json) w))
    = false.
Proof.
  intros w.
  destruct (@loadFavorites_never_rejects example_json w)
    as (_ & Htoasts & _ & _ & _ & _ & Hrun).
  split; [vm_compute; reflexivity|]. split; [exact Htoasts|].
  vm_compute. reflexivity.
Defined.

Lemma loadMovieRecommendations_never_rejects_witness :
  let b := example_browser ∅ [NoResponse] in
  let state := MovieState.mk (Some movie42) [movie7] false in
  let run :=
    @useMovieStore.loadMovieRecommendations example_readings 42 (b, state) in
  run.1 = Resolved tt
  ∧ MovieState.selectedMovie run.2.2 = Some movie42
  ∧ (url <$> sent run.2.1) = ["/movies/42/recommendations/?limit=10"].
Proof.
  intros b state run.
  destruct (@loadMovieRecommendations_never_rejects example_readings 42 b state)
    as (_ & Hselected & _ & _).
  split; [vm_compute; reflexivity|]. split; [exact Hselected|].
  vm_compute. reflexivity.
Defined.
